(** * AI-Powered Knowledge Quiz: the response pipeline and the quiz state

    A shallow embedding of [src/services/aiService.ts] (prompt builders,
    JSON extraction, question validation, retry loops) and of the state
    transitions of [src/context/QuizContext.tsx] (recording answers and
    finalising a quiz), together with the properties the specification
    states about them.

    Conventions of the embedding:
    - a JavaScript [number] that carries data (a JSON number, an option
      index, a score) is an IEEE-754 binary64 value, [spec_float] with
      precision 53 and maximal exponent 1024, so that division, rounding
      and comparison behave as they do in the program;
    - loop counters, the retry limit and delays are integers ([Z]); they
      are exactly representable numbers in every run of the program;
    - a string is the sequence of bytes of its UTF-8 encoding;
    - an [async] function is a state transformer over the observable
      history of the run (calls to the operation, delays, console output)
      that returns either a value or the thrown value. *)

From Stdlib Require Import ZArith String Ascii List Bool Lia.
From Stdlib Require Import DecimalString.
From Corelib Require Import SpecFloat.
From stdpp Require Import base list strings.

Local Open Scope string_scope.
Local Open Scope Z_scope.

#[local] Set Warnings "-register-all".
#[local] Arguments String.append : simpl nomatch.

(** ** JavaScript numbers *)

Module JsNumber.

Definition number := spec_float.

Definition prec : Z := 53.
Definition emax : Z := 1024.

Definition NaN : number := S754_nan.

(** The number denoted by an integer (exact below 2^53, rounded to nearest
    even above). *)
Definition of_Z (z : Z) : number := binary_normalize prec emax z 0 false.

Definition of_nat (n : nat) : number := of_Z (Z.of_nat n).

(** The number denoted by the decimal [(-1)^neg * m * 10^e], correctly
    rounded: the value a numeric literal of a JSON text stands for. *)
Definition of_decimal (neg : bool) (m : Z) (e : Z) : number :=
  match m with
  | Zpos p =>
      match e with
      | Zneg k => SFdiv prec emax (S754_finite neg p 0)
                                  (S754_finite false (Pos.pow 10 k) 0)
      | _ => binary_round prec emax neg (p * Z.to_pos (10 ^ e)) 0
      end
  | _ => S754_zero neg
  end.

Definition div (x y : number) : number := SFdiv prec emax x y.
Definition mul (x y : number) : number := SFmul prec emax x y.

(** [x <= y], [x >= y] and [x === y] on numbers (all false on NaN). *)
Definition le (x y : number) : bool := SFleb x y.
Definition ge (x y : number) : bool := SFleb y x.
Definition strict_equals (x y : number) : bool := SFeqb x y.

(** [Math.round]: the integral number closest to [x], ties towards
    +infinity; the sign of a zero result is the sign of [x]. *)
Definition Math_round (x : number) : number :=
  match x with
  | S754_finite s m e =>
      if 0 <=? e then x
      else
        let v := cond_Zopp s (Zpos m) in
        let n := (v + 2 ^ (- e - 1)) / 2 ^ (- e) in
        match n with
        | 0 => S754_zero s
        | _ => of_Z n
        end
  | _ => x
  end.

(** [Number.isInteger]. *)
Definition isInteger (x : number) : bool :=
  match x with
  | S754_zero _ => true
  | S754_finite _ m e =>
      if 0 <=? e then true else Zpos m mod 2 ^ (- e) =? 0
  | _ => false
  end.

(** The integer an integral number stands for. *)
Definition to_Z (x : number) : option Z :=
  match x with
  | S754_zero _ => Some 0
  | S754_finite s m e =>
      if 0 <=? e then Some (cond_Zopp s (Zpos m * 2 ^ e))
      else if Zpos m mod 2 ^ (- e) =? 0
           then Some (cond_Zopp s (Zpos m / 2 ^ (- e)))
           else None
  | _ => None
  end.

(** *** Number to string (ECMAScript [Number::toString], radix 10) *)

Definition string_of_Z (z : Z) : string := NilEmpty.string_of_int (Z.to_int z).

Definition nb_digits (z : Z) : Z := Z.of_nat (String.length (string_of_Z z)).

Fixpoint zeros (n : nat) : string :=
  match n with
  | O => EmptyString
  | S n' => String "0"%char (zeros n')
  end.

(** The integer [n] with [10^(n-1) <= N/D < 10^n], for positive [N], [D]. *)
Definition decimal_magnitude (N D : Z) : Z :=
  if D <=? N then nb_digits (N / D)
  else
    let j := nb_digits (D / N) in
    if N * 10 ^ (j - 1) =? D then 2 - j else 1 - j.

(** A candidate digit string [s] with decimal point position [n]: it
    denotes [s * 10^(n-k)]; [c_num / c_den] is its distance to the number
    being printed. *)
Record candidate := { c_n : Z; c_s : Z; c_num : Z; c_den : Z }.

Definition mk_candidate (N D : Z) (k n s : Z) : candidate :=
  let p := n - k in
  let A := if 0 <=? p then s * 10 ^ p else s in
  let B := if 0 <=? p then 1 else 10 ^ (- p) in
  {| c_n := n; c_s := s; c_num := Z.abs (A * D - N * B); c_den := B * D |}.

(** [c] has exactly [k] digits. *)
Definition in_range (k : Z) (c : candidate) : bool :=
  (10 ^ (k - 1) <=? c_s c) && (c_s c <? 10 ^ k).

(** The decimal that [c] denotes reads back as [x]. *)
Definition reads_back (x : number) (k : Z) (c : candidate) : bool :=
  SFeqb (of_decimal false (c_s c) (c_n c - k)) x.

(** [closer c1 c2]: [c1] is nearer than [c2], or as near with an even [s]. *)
Definition closer (c1 c2 : candidate) : bool :=
  match (c_num c1 * c_den c2) ?= (c_num c2 * c_den c1) with
  | Lt => true
  | Eq => Z.even (c_s c1)
  | Gt => false
  end.

Definition nearest (cs : list candidate) (c0 : candidate) : candidate :=
  fold_left (fun best c => if closer c best then c else best) cs c0.

(** The decimals of [k] digits next to [N/D], below and above, with the
    decimal point at the magnitude of [N/D] or one place further. *)
Definition candidates (N D : Z) (k : Z) : list candidate :=
  let n0 := decimal_magnitude N D in
  List.filter (in_range k)
    (flat_map (fun n =>
       let p := n - k in
       let lo := if 0 <=? p then N / (D * 10 ^ p) else (N * 10 ^ (- p)) / D in
       [mk_candidate N D k n lo; mk_candidate N D k n (lo + 1)])
       [n0; n0 + 1]).

(** The shortest digit string that reads back as [x], the nearest one
    among those of that length: lengths [k], [k+1], ... are tried while
    [fuel] lasts, and the nearest decimal of the length reached then is
    taken (with 17 digits it reads back as [x] for every binary64). *)
Fixpoint shortest (x : number) (N D : Z) (fuel : nat) (k : Z) : Z * candidate :=
  match fuel with
  | O =>
      match candidates N D k with
      | c :: rest => (k, nearest rest c)
      | [] => (k, mk_candidate N D k (decimal_magnitude N D) (10 ^ (k - 1)))
      end
  | S fuel' =>
      match List.filter (reads_back x k) (candidates N D k) with
      | c :: rest => (k, nearest rest c)
      | [] => shortest x N D fuel' (k + 1)
      end
  end.

Definition render (k n s : Z) : string :=
  let ds := string_of_Z s in
  if (k <=? n) && (n <=? 21) then ds ++ zeros (Z.to_nat (n - k))
  else if (0 <? n) && (n <=? 21) then
    substring 0 (Z.to_nat n) ds ++ "." ++ substring (Z.to_nat n) (Z.to_nat (k - n)) ds
  else if (-6 <? n) && (n <=? 0) then "0." ++ zeros (Z.to_nat (- n)) ++ ds
  else
    let e := n - 1 in
    let sign := if 0 <=? e then "+" else "-" in
    let mant := if k =? 1 then ds
                else substring 0 1 ds ++ "." ++ substring 1 (Z.to_nat (k - 1)) ds in
    mant ++ "e" ++ sign ++ string_of_Z (Z.abs e).

Definition Number_toString (x : number) : string :=
  match x with
  | S754_nan => "NaN"
  | S754_zero _ => "0"
  | S754_infinity s => if s then "-Infinity" else "Infinity"
  | S754_finite s m e =>
      let N := if 0 <=? e then Zpos m * 2 ^ e else Zpos m in
      let D := if 0 <=? e then 1 else 2 ^ (- e) in
      let '(k, c) := shortest (S754_finite false m e) N D 16 1 in
      let body := render k (c_n c) (c_s c) in
      if s then "-" ++ body else body
  end.

End JsNumber.

Export JsNumber (number).

(** ** JSON values and [JSON.parse] *)

Module Json.

Import JsNumber.

Inductive JSON : Type :=
  | JNull
  | JBool (b : bool)
  | JNumber (n : number)
  | JString (s : string)
  | JArray (items : list JSON)
  | JObject (fields : list (string * JSON)).

(** *** Property writes on a parsed object: a repeated key keeps its place
    and takes the later value.  The program reads members by name only,
    so the order in which an object lists them plays no part. *)

Fixpoint obj_set (fields : list (string * JSON)) (k : string) (v : JSON)
  : list (string * JSON) :=
  match fields with
  | [] => [(k, v)]
  | (k', v') :: rest =>
      if String.eqb k' k then (k', v) :: rest
      else (k', v') :: obj_set rest k v
  end.

Fixpoint obj_get (fields : list (string * JSON)) (k : string) : option JSON :=
  match fields with
  | [] => None
  | (k', v') :: rest => if String.eqb k' k then Some v' else obj_get rest k
  end.

(** *** Characters *)

Definition char_code (c : ascii) : Z := Z.of_N (N_of_ascii c).
Definition char (z : Z) : ascii := ascii_of_N (Z.to_N z).

Definition is_whitespace (c : ascii) : bool :=
  let n := char_code c in (n =? 32) || (n =? 9) || (n =? 10) || (n =? 13).

Definition is_digit (c : ascii) : bool := (48 <=? char_code c) && (char_code c <=? 57).

Definition hex_value (c : ascii) : option Z :=
  let n := char_code c in
  if (48 <=? n) && (n <=? 57) then Some (n - 48)
  else if (65 <=? n) && (n <=? 70) then Some (n - 55)
  else if (97 <=? n) && (n <=? 102) then Some (n - 87)
  else None.

(** *** String literals: escapes, then UTF-8 *)

(** The body of a literal is first read as a sequence of raw bytes and of
    UTF-16 code units written as [\uXXXX]. *)
Inductive unit16 := Raw (c : ascii) | Escaped (cu : Z).

Fixpoint read_body (s : list ascii) : option (list unit16) :=
  match s with
  | [] => Some []
  | c :: rest =>
      if char_code c <? 32 then None
      else if char_code c =? 92 then
        match rest with
        | e :: rest' =>
            let simple (z : Z) := option_map (cons (Raw (char z))) (read_body rest') in
            match char_code e with
            | 34 => simple 34
            | 92 => simple 92
            | 47 => simple 47
            | 98 => simple 8
            | 102 => simple 12
            | 110 => simple 10
            | 114 => simple 13
            | 116 => simple 9
            | 117 =>
                match rest' with
                | h1 :: h2 :: h3 :: h4 :: rest'' =>
                    match hex_value h1, hex_value h2, hex_value h3, hex_value h4 with
                    | Some a, Some b, Some c', Some d =>
                        option_map (cons (Escaped (((a * 16 + b) * 16 + c') * 16 + d)))
                                   (read_body rest'')
                    | _, _, _, _ => None
                    end
                | _ => None
                end
            | _ => None
            end
        | [] => None
        end
      else option_map (cons (Raw c)) (read_body rest)
  end.

Definition utf8 (cp : Z) : list ascii :=
  if cp <? 128 then [char cp]
  else if cp <? 2048 then [char (192 + cp / 64); char (128 + cp mod 64)]
  else if cp <? 65536 then
    [char (224 + cp / 4096); char (128 + (cp / 64) mod 64); char (128 + cp mod 64)]
  else
    [char (240 + cp / 262144); char (128 + (cp / 4096) mod 64);
     char (128 + (cp / 64) mod 64); char (128 + cp mod 64)].

Definition is_high_surrogate (cu : Z) : bool := (55296 <=? cu) && (cu <=? 56319).
Definition is_low_surrogate (cu : Z) : bool := (56320 <=? cu) && (cu <=? 57343).

(** A high surrogate followed by a low one is one code point. *)
Fixpoint encode (us : list unit16) : list ascii :=
  match us with
  | [] => []
  | Raw c :: rest => c :: encode rest
  | Escaped hi :: rest =>
      match rest with
      | Escaped lo :: rest' =>
          if is_high_surrogate hi && is_low_surrogate lo
          then utf8 (65536 + (hi - 55296) * 1024 + (lo - 56320)) ++ encode rest'
          else utf8 hi ++ encode rest
      | _ => utf8 hi ++ encode rest
      end
  end.

Definition string_of_chars (l : list ascii) : string := string_of_list_ascii l.

Definition decode_string (body : list ascii) : option string :=
  option_map (fun us => string_of_chars (encode us)) (read_body body).

(** *** Numeric literals: an optional minus sign; an integer part that is
    a single 0 or starts with a non-zero digit; an optional fraction (a dot
    and one or more digits); an optional exponent (e or E, an optional
    sign, one or more digits). *)

Fixpoint take_digits (s : list ascii) (acc : Z) (count : Z) : Z * Z * list ascii :=
  match s with
  | c :: rest =>
      if is_digit c then take_digits rest (acc * 10 + (char_code c - 48)) (count + 1)
      else (acc, count, s)
  | [] => (acc, count, [])
  end.

Definition leading_zero (s : list ascii) : bool :=
  match s with
  | c :: _ => char_code c =? 48
  | [] => false
  end.

Definition read_exponent (s : list ascii) : option Z :=
  match s with
  | [] => Some 0
  | c :: rest =>
      if (char_code c =? 101) || (char_code c =? 69) then
        let '(neg, rest1) :=
          match rest with
          | sg :: r => if char_code sg =? 45 then (true, r)
                       else if char_code sg =? 43 then (false, r)
                       else (false, rest)
          | [] => (false, rest)
          end in
        match take_digits rest1 0 0 with
        | (x, nx, []) => if 1 <=? nx then Some (if neg then - x else x) else None
        | _ => None
        end
      else None
  end.

Definition read_number (s : list ascii) : option number :=
  let '(neg, s1) :=
    match s with
    | c :: r => if char_code c =? 45 then (true, r) else (false, s)
    | [] => (false, s)
    end in
  let '(i, ni, s2) := take_digits s1 0 0 in
  if (ni =? 0) || (leading_zero s1 && negb (ni =? 1)) then None
  else
    let frac :=
      match s2 with
      | c :: r =>
          if char_code c =? 46 then
            let '(m, nf, s3) := take_digits r i 0 in
            if nf =? 0 then None else Some (m, nf, s3)
          else Some (i, 0, s2)
      | [] => Some (i, 0, s2)
      end in
    match frac with
    | Some (m, nf, s3) =>
        match read_exponent s3 with
        | Some x => Some (of_decimal neg m (x - nf))
        | None => None
        end
    | None => None
    end.

(** *** Tokens *)

Inductive token :=
  | TLBrace | TRBrace | TLBracket | TRBracket | TColon | TComma
  | TString (s : string)
  | TAtom (v : JSON).

(** A maximal run of characters that are neither white space, nor
    punctuation, nor a quote, is a literal name or a number. *)
Definition read_word (w : list ascii) : option token :=
  let s := string_of_chars w in
  if String.eqb s "true" then Some (TAtom (JBool true))
  else if String.eqb s "false" then Some (TAtom (JBool false))
  else if String.eqb s "null" then Some (TAtom JNull)
  else option_map (fun n => TAtom (JNumber n)) (read_number w).

Definition punctuation (c : ascii) : option token :=
  match char_code c with
  | 123 => Some TLBrace
  | 125 => Some TRBrace
  | 91 => Some TLBracket
  | 93 => Some TRBracket
  | 58 => Some TColon
  | 44 => Some TComma
  | _ => None
  end.

Inductive lex_mode :=
  | LIdle
  | LWord (rev_chars : list ascii)
  | LString (escaped : bool) (rev_chars : list ascii).

(** One character in idle mode. *)
Definition lex_idle (c : ascii) (rev_toks : list token)
  : lex_mode * list token :=
  if is_whitespace c then (LIdle, rev_toks)
  else match punctuation c with
       | Some t => (LIdle, t :: rev_toks)
       | None => if char_code c =? 34 then (LString false [], rev_toks)
                 else (LWord [c], rev_toks)
       end.

Fixpoint lex (s : list ascii) (mode : lex_mode) (rev_toks : list token)
  : option (list token) :=
  match s with
  | [] =>
      match mode with
      | LIdle => Some (rev rev_toks)
      | LWord w =>
          option_map (fun t => rev (t :: rev_toks)) (read_word (rev w))
      | LString _ _ => None
      end
  | c :: rest =>
      match mode with
      | LIdle =>
          let '(mode', toks') := lex_idle c rev_toks in lex rest mode' toks'
      | LWord w =>
          if is_whitespace c || (char_code c =? 34)
             || match punctuation c with Some _ => true | None => false end
          then match read_word (rev w) with
               | Some t =>
                   let '(mode', toks') := lex_idle c (t :: rev_toks) in
                   lex rest mode' toks'
               | None => None
               end
          else lex rest (LWord (c :: w)) rev_toks
      | LString true body => lex rest (LString false (c :: body)) rev_toks
      | LString false body =>
          if char_code c =? 34 then
            match decode_string (rev body) with
            | Some str => lex rest LIdle (TString str :: rev_toks)
            | None => None
            end
          else lex rest (LString (char_code c =? 92) (c :: body)) rev_toks
      end
  end.

(** *** The grammar, as a pushdown automaton over the tokens *)

(** An open container: the items read so far (latest first) or the
    members read so far and the key whose value is being read. *)
Inductive frame :=
  | FArray (rev_items : list JSON)
  | FObject (fields : list (string * JSON)) (key : option string).

Inductive expect :=
  | EValue          (* a value *)
  | EValueOrClose   (* just after an opening bracket *)
  | EKeyOrClose     (* just after an opening brace *)
  | EKey            (* after a comma inside an object *)
  | EColon
  | ESeparator      (* after a value inside a container *)
  | EEnd (v : JSON).    (* the top-level value is complete *)

Definition pstate : Type := expect * list frame.

(** A value is complete: it fills the innermost open container. *)
Definition complete (v : JSON) (stack : list frame) : option pstate :=
  match stack with
  | [] => Some (EEnd v, [])
  | FArray items :: st => Some (ESeparator, FArray (v :: items) :: st)
  | FObject fields (Some k) :: st =>
      Some (ESeparator, FObject (obj_set fields k v) None :: st)
  | FObject _ None :: _ => None
  end.

Definition close_array (stack : list frame) : option pstate :=
  match stack with
  | FArray items :: st => complete (JArray (rev items)) st
  | _ => None
  end.

Definition close_object (stack : list frame) : option pstate :=
  match stack with
  | FObject fields None :: st => complete (JObject fields) st
  | _ => None
  end.

Definition start_value (t : token) (stack : list frame) : option pstate :=
  match t with
  | TLBrace => Some (EKeyOrClose, FObject [] None :: stack)
  | TLBracket => Some (EValueOrClose, FArray [] :: stack)
  | TString s => complete (JString s) stack
  | TAtom v => complete v stack
  | _ => None
  end.

Definition read_key (t : token) (stack : list frame) : option pstate :=
  match t, stack with
  | TString k, FObject fields None :: st =>
      Some (EColon, FObject fields (Some k) :: st)
  | _, _ => None
  end.

Definition pstep (st : pstate) (t : token) : option pstate :=
  let '(e, stack) := st in
  match e with
  | EValue => start_value t stack
  | EValueOrClose =>
      match t with
      | TRBracket => close_array stack
      | _ => start_value t stack
      end
  | EKeyOrClose =>
      match t with
      | TRBrace => close_object stack
      | _ => read_key t stack
      end
  | EKey => read_key t stack
  | EColon => match t with TColon => Some (EValue, stack) | _ => None end
  | ESeparator =>
      match t, stack with
      | TComma, FArray _ :: _ => Some (EValue, stack)
      | TComma, FObject _ None :: _ => Some (EKey, stack)
      | TRBracket, _ => close_array stack
      | TRBrace, _ => close_object stack
      | _, _ => None
      end
  | EEnd _ => None
  end.

Fixpoint prun (st : pstate) (ts : list token) : option pstate :=
  match ts with
  | [] => Some st
  | t :: rest =>
      match pstep st t with
      | Some st' => prun st' rest
      | None => None
      end
  end.

(** [JSON.parse text]: the value, or [None] where the engine throws a
    [SyntaxError]. *)
Definition JSON_parse (text : string) : option JSON :=
  match lex (list_ascii_of_string text) LIdle [] with
  | Some ts =>
      match prun (EValue, []) ts with
      | Some (EEnd v, _) => Some v
      | _ => None
      end
  | None => None
  end.

(** *** Reading parsed values *)

(** [v.key] for a key that no built-in prototype defines and that is
    neither an index nor [length]: the member of an object, [undefined]
    ([None]) on any other value; reading a property of [null] throws a
    [TypeError], here the outer [None]. *)
Definition get_prop (v : JSON) (key : string) : option (option JSON) :=
  match v with
  | JNull => None
  | JObject fields => Some (obj_get fields key)
  | _ => Some None
  end.

(** Truthiness of a value that may be [undefined]. *)
Definition truthy (v : option JSON) : bool :=
  match v with
  | None => false
  | Some JNull => false
  | Some (JBool b) => b
  | Some (JNumber n) =>
      match n with
      | S754_zero _ | S754_nan => false
      | _ => true
      end
  | Some (JString s) => negb (String.eqb s EmptyString)
  | Some (JArray _) | Some (JObject _) => true
  end.

Definition is_string (v : option JSON) : bool :=
  match v with Some (JString _) => true | _ => false end.

Definition is_number (v : option JSON) : bool :=
  match v with Some (JNumber _) => true | _ => false end.

Definition Array_isArray (v : option JSON) : bool :=
  match v with Some (JArray _) => true | _ => false end.

(** Writing JSON texts in this file: apostrophes stand for double quotes. *)
Definition dq (s : string) : string :=
  string_of_list_ascii
    (map (fun c => if char_code c =? 39 then char 34 else c) (list_ascii_of_string s)).

End Json.

(** ** The AI service ([src/services/aiService.ts]) *)

Module AiService.

Import JsNumber Json.

(** *** Configuration ([QUIZ_CONFIG] of the constants module) *)

Record QuizConfig := {
  QUESTIONS_PER_QUIZ : Z;
  MAX_RETRIES : Z;
  RETRY_DELAY : Z
}.

Definition QUIZ_CONFIG : QuizConfig :=
  {| QUESTIONS_PER_QUIZ := 5; MAX_RETRIES := 3; RETRY_DELAY := 1000 |}.

(** *** Thrown values and results *)

Inductive ErrorClass := Error | SyntaxError | TypeError.

Record APIError := { message : string; code : option string }.

(** What a [throw] can carry in this module: an error object of a built-in
    class, the plain [APIError] object, or [undefined]. *)
Inductive Thrown :=
  | ThrownError (cls : ErrorClass) (msg : string)
  | ThrownAPIError (e : APIError)
  | ThrownUndefined.

Inductive Result (A : Type) :=
  | Ok (a : A)
  | Throw (t : Thrown).

Arguments Ok {A} a.
Arguments Throw {A} t.

Definition rbind {A B} (r : Result A) (k : A -> Result B) : Result B :=
  match r with
  | Ok a => k a
  | Throw t => Throw t
  end.

Notation "x <-r e ;; k" := (rbind e (fun x => k))
  (at level 100, e at next level, right associativity).

(** [error.message], [undefined] when the thrown value has none. *)
Definition message_of (t : Thrown) : option string :=
  match t with
  | ThrownError _ m => Some m
  | ThrownAPIError e => Some (message e)
  | ThrownUndefined => None
  end.

(** The text the template literal [${lastError?.message}] contributes. *)
Definition lastError_message (lastError : option Thrown) : string :=
  match lastError with
  | Some t => match message_of t with
              | Some m => m
              | None => "undefined"
              end
  | None => "undefined"
  end.

(** *** The observable history of a run *)

Inductive Level := Log | Warn | Err.

Inductive ConsoleArg :=
  | Text (s : string)
  | Value (t : Thrown).

Inductive Event :=
  | Call (prompt : string)     (* one call of [callGeminiAPI] *)
  | Invoke                     (* one invocation of an operation under retry *)
  | Delay (ms : Z)             (* [await delay(ms)] *)
  | Console (lvl : Level) (args : list ConsoleArg).

Definition History := list Event.

Definition is_call (e : Event) : bool :=
  match e with Call _ => true | _ => false end.

Definition is_invoke (e : Event) : bool :=
  match e with Invoke => true | _ => false end.

Definition calls (h : History) : nat := length (List.filter is_call h).

Definition invocations (h : History) : nat := length (List.filter is_invoke h).

Fixpoint delays (h : History) : list Z :=
  match h with
  | [] => []
  | Delay ms :: rest => ms :: delays rest
  | _ :: rest => delays rest
  end.

Fixpoint warnings (h : History) : list (list ConsoleArg) :=
  match h with
  | [] => []
  | Console Warn args :: rest => args :: warnings rest
  | _ :: rest => warnings rest
  end.

(** *** Asynchronous computations *)

Definition M (A : Type) : Type := History -> Result A * History.

Definition ret {A} (a : A) : M A := fun h => (Ok a, h).

Definition throw {A} (t : Thrown) : M A := fun h => (Throw t, h).

Definition bind {A B} (m : M A) (k : A -> M B) : M B :=
  fun h => match m h with
           | (Ok a, h') => k a h'
           | (Throw t, h') => (Throw t, h')
           end.

Definition try_catch {A} (m : M A) (handler : Thrown -> M A) : M A :=
  fun h => match m h with
           | (Ok a, h') => (Ok a, h')
           | (Throw t, h') => handler t h'
           end.

Definition lift {A} (r : Result A) : M A := fun h => (r, h).

Definition emit (e : Event) : M unit := fun h => (Ok tt, (h ++ [e])%list).

Notation "x <- e ;; k" := (bind e (fun x => k))
  (at level 100, e at next level, right associativity).
Notation "e ;;; k" := (bind e (fun _ => k))
  (at level 100, right associativity).

Definition console_log (args : list ConsoleArg) : M unit := emit (Console Log args).
Definition console_warn (args : list ConsoleArg) : M unit := emit (Console Warn args).
Definition console_error (args : list ConsoleArg) : M unit := emit (Console Err args).

Definition delay (ms : Z) : M unit := emit (Delay ms).

(** *** The generation endpoint

    [callGeminiAPI] is the HTTP exchange with the generation service; it
    is declared to resolve to a string or to reject.  What its [n]-th call
    (counted from 0) returns or throws for a prompt is given by the
    environment; its own console output is part of the exchange and is
    not recorded. *)

Definition Endpoint := nat -> string -> Result string.

Definition callGeminiAPI (endpoint : Endpoint) (prompt : string) : M string :=
  fun h => (endpoint (calls h) prompt, (h ++ [Call prompt])%list).

(** An operation handed to [retryWithBackoff] whose [n]-th invocation
    (counted from 0) has the outcome [outcomes n]. *)
Definition operation {T} (outcomes : nat -> Result T) : M T :=
  fun h => (outcomes (invocations h), (h ++ [Invoke])%list).

(** *** Prompt builders *)

Definition generateQuestionsPrompt (topic : string) (count : number) : string :=
  "Generate exactly " ++ Number_toString count ++ " multiple choice questions about " ++ topic ++ dq ".
Return ONLY valid JSON in this exact format with no additional text:
{
  'questions': [
    {
      'id': 'unique-id',
      'question': 'Question text here?',
      'options': ['Option A', 'Option B', 'Option C', 'Option D'],
      'correctAnswer': 0
    }
  ]
}

Requirements:
- Exactly " ++ Number_toString count ++ " questions
- Each question must have exactly 4 options
- correctAnswer is the index (0-3) of the correct option
- Questions should be clear, concise, and factually accurate
- Difficulty should be moderate (suitable for general knowledge)
- Avoid ambiguous or trick questions".

(** The part of the feedback prompt that follows the score. *)
Definition feedback_requirements : string := dq "%).

Return ONLY valid JSON in this exact format:
{
  'message': 'Your personalized feedback message here'
}

Requirements:
- Be encouraging and positive
- Acknowledge their performance level
- Provide 1-2 specific suggestions for improvement if score < 80%
- Keep the message concise (2-3 sentences)
- Use a friendly, conversational tone".

Definition generateFeedbackPrompt
  (topic : string) (score correctAnswers totalQuestions : number) : string :=
  "Generate personalized feedback for a quiz taker who scored "
  ++ Number_toString correctAnswers ++ " out of " ++ Number_toString totalQuestions ++ " 
on a " ++ topic ++ " quiz (" ++ Number_toString score ++ feedback_requirements.

(** *** JSON extraction *)

(** The text after the first opening brace. *)
Fixpoint after_first_open (s : string) : option string :=
  match s with
  | EmptyString => None
  | String c rest =>
      if char_code c =? 123 then Some rest else after_first_open rest
  end.

(** The longest prefix that ends with a closing brace. *)
Fixpoint upto_last_close (s : string) : option string :=
  match s with
  | EmptyString => None
  | String c rest =>
      match upto_last_close rest with
      | Some p => Some (String c p)
      | None => if char_code c =? 125 then Some (String c EmptyString) else None
      end
  end.

(** [text.match(/\{[\s\S]*\}/)]: the leftmost match of an opening brace,
    as many characters of any kind as possible, and a closing brace. *)
Definition match_braces (text : string) : option string :=
  match after_first_open text with
  | Some rest => option_map (String (char 123)) (upto_last_close rest)
  | None => None
  end.

Section Engine.

(** The text of the errors the engine raises by itself is
    implementation-defined: [SyntaxError_message text] for [JSON.parse]
    failing on [text], [TypeError_message key] for reading [key] from
    [null]. *)
Variable SyntaxError_message : string -> string.
Variable TypeError_message : string -> string.

Definition parse (text : string) : Result JSON :=
  match JSON_parse text with
  | Some v => Ok v
  | None => Throw (ThrownError SyntaxError (SyntaxError_message text))
  end.

Definition read (v : JSON) (key : string) : Result (option JSON) :=
  match get_prop v key with
  | Some r => Ok r
  | None => Throw (ThrownError TypeError (TypeError_message key))
  end.

Definition extractJSON (text : string) : Result JSON :=
  match match_braces text with
  | None => Throw (ThrownError Error "No JSON found in AI response")
  | Some jsonMatch => parse jsonMatch
  end.

(** *** Question validation *)

(** The conjunction is evaluated left to right and stops at the first
    false operand; each property is read where its first test stands. *)
Definition validateQuestion (question : JSON) : Result bool :=
  id <-r read question "id" ;;
  if negb (is_string id) then Ok false else
  text <-r read question "question" ;;
  if negb (is_string text) then Ok false else
  options <-r read question "options" ;;
  match options with
  | Some (JArray opts) =>
      if negb (Nat.eqb (length opts) 4) then Ok false else
      if negb (forallb (fun opt => is_string (Some opt)) opts) then Ok false else
      correctAnswer <-r read question "correctAnswer" ;;
      match correctAnswer with
      | Some (JNumber n) => Ok (ge n (of_Z 0) && le n (of_Z 3))
      | _ => Ok false
      end
  | _ => Ok false
  end.

(** [questions.every(validateQuestion)]. *)
Fixpoint every_validateQuestion (questions : list JSON) : Result bool :=
  match questions with
  | [] => Ok true
  | q :: rest =>
      ok <-r validateQuestion q ;;
      if ok then every_validateQuestion rest else Ok false
  end.

(** *** generateQuestions *)

Record GenerateQuestionsRequest := { topic : string; count : number }.

Record GenerateQuestionsResponse := { questions : list JSON }.

(** The body of the [try] block of one attempt. *)
Definition attempt_questions
  (endpoint : Endpoint) (prompt : string) (count : number) (attempt : Z)
  : M GenerateQuestionsResponse :=
  console_log [Text ("🔄 Attempt " ++ string_of_Z (attempt + 1) ++ ": Calling Gemini API...")] ;;;
  aiResponse <- callGeminiAPI endpoint prompt ;;
  result <- lift (extractJSON aiResponse) ;;
  field <- lift (read result "questions") ;;
  match field with
  | Some (JArray questions) =>
      valid <- lift (every_validateQuestion questions) ;;
      if negb valid then throw (ThrownError Error "Invalid question format received")
      else
        (if negb (strict_equals (of_nat (length questions)) count)
         then console_warn [Text ("⚠️ Expected " ++ Number_toString count
                                   ++ " questions but got "
                                   ++ string_of_Z (Z.of_nat (length questions)))]
         else ret tt) ;;;
        console_log [Text ("✅ Successfully generated "
                           ++ string_of_Z (Z.of_nat (length questions))
                           ++ " questions from Gemini API")] ;;;
        ret {| questions := questions |}
  | _ => throw (ThrownError Error "Invalid response format from AI")
  end.

(** The [for] loop: [fuel] iterations remain, the counter is [attempt]. *)
Fixpoint generateQuestions_loop
  (endpoint : Endpoint) (prompt : string) (count : number)
  (max_retries retry_delay : Z)
  (fuel : nat) (attempt : Z) (lastError : option Thrown)
  : M GenerateQuestionsResponse :=
  match fuel with
  | O =>
      throw (ThrownAPIError
        {| message := "Failed to generate questions after "
                      ++ string_of_Z max_retries ++ " attempts: "
                      ++ lastError_message lastError;
           code := Some "GENERATION_FAILED" |})
  | S fuel' =>
      try_catch (attempt_questions endpoint prompt count attempt)
        (fun error =>
           console_error [Text ("❌ Attempt " ++ string_of_Z (attempt + 1) ++ " failed:");
                          Value error] ;;;
           (if attempt <? max_retries - 1 then
              let retryDelay := retry_delay * 2 ^ attempt in
              console_log [Text ("⏳ Retrying in " ++ string_of_Z retryDelay ++ "ms...")] ;;;
              delay retryDelay
            else ret tt) ;;;
           generateQuestions_loop endpoint prompt count max_retries retry_delay
             fuel' (attempt + 1) (Some error))
  end.

Definition generateQuestions
  (endpoint : Endpoint) (request : GenerateQuestionsRequest)
  : M GenerateQuestionsResponse :=
  let prompt := generateQuestionsPrompt (topic request) (count request) in
  console_log [Text "🤖 Generating questions with AI for topic:"; Text (topic request)] ;;;
  generateQuestions_loop endpoint prompt (count request)
    (MAX_RETRIES QUIZ_CONFIG) (RETRY_DELAY QUIZ_CONFIG)
    (Z.to_nat (MAX_RETRIES QUIZ_CONFIG)) 0 None.

(** *** generateFeedback *)

(** The fields [topic] of the request and [message] of the response are
    written [fb_topic] and [fb_message], the plain names being those of
    [GenerateQuestionsRequest] and [APIError]. *)
Record GenerateFeedbackRequest := {
  fb_topic : string;
  score : number;
  totalQuestions : number;
  correctAnswers : number
}.

Record GenerateFeedbackResponse := { fb_message : string }.

Definition generateFeedback
  (endpoint : Endpoint) (request : GenerateFeedbackRequest)
  : M GenerateFeedbackResponse :=
  let prompt := generateFeedbackPrompt (fb_topic request) (score request)
                  (correctAnswers request) (totalQuestions request) in
  console_log [Text "🤖 Generating feedback with AI..."] ;;;
  try_catch
    (console_log [Text "🔄 Calling Gemini API for feedback..."] ;;;
     aiResponse <- callGeminiAPI endpoint prompt ;;
     result <- lift (extractJSON aiResponse) ;;
     field <- lift (read result "message") ;;
     match field with
     | Some (JString message) =>
         if negb (truthy field) then throw (ThrownError Error "Invalid feedback format from AI")
         else
           console_log [Text "✅ Feedback generated from Gemini API"] ;;;
           ret {| fb_message := message |}
     | _ => throw (ThrownError Error "Invalid feedback format from AI")
     end)
    (fun error =>
       console_error [Text "❌ Failed to generate feedback:"; Value error] ;;;
       throw error).

(** *** retryWithBackoff *)

(** The [for] loop: [fuel] iterations remain, the counter is [attempt];
    [lastError] is [None] while the variable is unassigned. *)
Fixpoint retry_loop {T} (fn : M T) (maxRetries baseDelay : Z)
  (fuel : nat) (attempt : Z) (lastError : option Thrown) : M T :=
  match fuel with
  | O =>
      throw (match lastError with
             | Some e => e
             | None => ThrownUndefined
             end)
  | S fuel' =>
      try_catch fn
        (fun error =>
           (if attempt <? maxRetries - 1 then
              let delayTime := baseDelay * 2 ^ attempt in
              delay delayTime
            else ret tt) ;;;
           retry_loop fn maxRetries baseDelay fuel' (attempt + 1) (Some error))
  end.

Definition retryWithBackoff {T} (fn : M T) (maxRetries baseDelay : Z) : M T :=
  retry_loop fn maxRetries baseDelay (Z.to_nat maxRetries) 0 None.

(** *** Derived notions used by the statements below *)

(** What one attempt of [generateQuestions] makes of the answer of the
    endpoint: the call, the extraction and the validation as one unit. *)
Definition response_outcome (response : Result string)
  : Result GenerateQuestionsResponse :=
  aiResponse <-r response ;;
  result <-r extractJSON aiResponse ;;
  field <-r read result "questions" ;;
  match field with
  | Some (JArray questions) =>
      valid <-r every_validateQuestion questions ;;
      if negb valid then Throw (ThrownError Error "Invalid question format received")
      else Ok {| questions := questions |}
  | _ => Throw (ThrownError Error "Invalid response format from AI")
  end.

(** The extraction as the specification words it: the span from the first
    opening brace to the closing brace that balances it is parsed. *)
Fixpoint scan_balanced (s : string) (depth : nat) : option string :=
  match s with
  | EmptyString => None
  | String c rest =>
      if char_code c =? 123 then option_map (String c) (scan_balanced rest (S depth))
      else if char_code c =? 125 then
        match depth with
        | O => Some (String c EmptyString)
        | S d => option_map (String c) (scan_balanced rest d)
        end
      else option_map (String c) (scan_balanced rest depth)
  end.

Definition spec_balanced_span (text : string) : option string :=
  match after_first_open text with
  | Some rest => option_map (String (char 123)) (scan_balanced rest 0)
  | None => None
  end.

Definition spec_extractJSON (text : string) : Result JSON :=
  match spec_balanced_span text with
  | None => Throw (ThrownError Error "No JSON found in AI response")
  | Some span => parse span
  end.

End Engine.

Definition failed {A} (r : Result A) : Prop := exists e, r = Throw e.

Fixpoint has_char (c : Z) (s : string) : bool :=
  match s with
  | EmptyString => false
  | String c' rest => (char_code c' =? c) || has_char c rest
  end.

(** The delays of [k] consecutive retries that start at counter [attempt]. *)
Fixpoint backoff_delays (baseDelay attempt : Z) (k : nat) : list Z :=
  match k with
  | O => []
  | S k' => baseDelay * 2 ^ attempt :: backoff_delays baseDelay (attempt + 1) k'
  end.

(** The number of places of [s] where [pat] starts. *)
Fixpoint occurrences (pat s : string) : nat :=
  match s with
  | EmptyString => O
  | String _ rest => ((if String.prefix pat s then 1 else 0) + occurrences pat rest)%nat
  end.


(** The warnings of an attempt that obtained [questions] when [count]
    were requested. *)
Definition length_warnings (count : number) (questions : list JSON)
  : list (list ConsoleArg) :=
  if negb (strict_equals (of_nat (length questions)) count)
  then [[Text ("⚠️ Expected " ++ Number_toString count
               ++ " questions but got "
               ++ string_of_Z (Z.of_nat (length questions)))]]
  else [].

(** The thrown value of a failed result. *)
Definition thrown_of {A} (r : Result A) : option Thrown :=
  match r with
  | Ok _ => None
  | Throw t => Some t
  end.

(** The integral numbers 0, 1, 2, 3. *)
Definition option_index (n : number) : Prop :=
  exists i, 0 <= i <= 3 /\ n = of_Z i.

End AiService.

(** ** The quiz state ([src/context/QuizContext.tsx]) *)

Module QuizContext.

Import JsNumber.

Record Question := {
  id : string;
  question : string;
  options : list string;
  correctAnswer : number
}.

Record UserAnswer := {
  questionId : string;
  selectedOption : number;
  isCorrect : bool
}.

Record QuizResult := {
  totalQuestions : nat;
  correctAnswers : nat;
  score : number;
  answers : list UserAnswer
}.

(** The state held by [QuizProvider]. *)
Record State := {
  currentTopic : option string;
  questions : list Question;
  currentQuestionIndex : Z;
  userAnswers : list UserAnswer;
  quizResult : option QuizResult;
  isLoading : bool;
  error : option string;
  isReviewMode : bool;
  isDarkMode : bool
}.

(** The state of a freshly mounted provider; [saved] is the stored theme. *)
Definition initial (saved : bool) : State :=
  {| currentTopic := None; questions := []; currentQuestionIndex := 0;
     userAnswers := []; quizResult := None; isLoading := false;
     error := None; isReviewMode := false; isDarkMode := saved |}.

Definition set_userAnswers (l : list UserAnswer) (s : State) : State :=
  {| currentTopic := currentTopic s; questions := questions s;
     currentQuestionIndex := currentQuestionIndex s; userAnswers := l;
     quizResult := quizResult s; isLoading := isLoading s; error := error s;
     isReviewMode := isReviewMode s; isDarkMode := isDarkMode s |}.

Definition set_quizResult (r : option QuizResult) (s : State) : State :=
  {| currentTopic := currentTopic s; questions := questions s;
     currentQuestionIndex := currentQuestionIndex s;
     userAnswers := userAnswers s; quizResult := r;
     isLoading := isLoading s; error := error s;
     isReviewMode := isReviewMode s; isDarkMode := isDarkMode s |}.

Definition set_currentQuestionIndex (i : Z) (s : State) : State :=
  {| currentTopic := currentTopic s; questions := questions s;
     currentQuestionIndex := i; userAnswers := userAnswers s;
     quizResult := quizResult s; isLoading := isLoading s; error := error s;
     isReviewMode := isReviewMode s; isDarkMode := isDarkMode s |}.

Definition setQuestions (newQuestions : list Question) (s : State) : State :=
  {| currentTopic := currentTopic s; questions := newQuestions;
     currentQuestionIndex := 0; userAnswers := []; quizResult := None;
     isLoading := isLoading s; error := error s;
     isReviewMode := isReviewMode s; isDarkMode := isDarkMode s |}.

Definition resetQuiz (s : State) : State := initial (isDarkMode s).

(** The updater that [answerQuestion] passes to [setUserAnswers]. *)
Definition record_answer
  (questionId0 : string) (selectedOption0 : number) (isCorrect0 : bool)
  (currentAnswers : list UserAnswer) : list UserAnswer :=
  let answer := {| questionId := questionId0;
                   selectedOption := selectedOption0;
                   isCorrect := isCorrect0 |} in
  match list_find (fun a => questionId a = questionId0) currentAnswers with
  | Some (existingAnswerIndex, _) =>
      <[existingAnswerIndex := answer]> currentAnswers
  | None => (currentAnswers ++ [answer])%list
  end.

Definition answerQuestion
  (questionId0 : string) (selectedOption0 correctAnswer0 : number)
  (s : State) : State :=
  let isCorrect0 := strict_equals selectedOption0 correctAnswer0 in
  set_userAnswers
    (record_answer questionId0 selectedOption0 isCorrect0 (userAnswers s)) s.

Definition nextQuestion (s : State) : State :=
  let current := currentQuestionIndex s in
  if current <? Z.of_nat (length (questions s)) - 1
  then set_currentQuestionIndex (current + 1) s
  else s.

Definition previousQuestion (s : State) : State :=
  let current := currentQuestionIndex s in
  if 0 <? current then set_currentQuestionIndex (current - 1) s else s.

(** [Math.round((correctAnswers / totalQuestions) * 100)]. *)
Definition compute_score (correctAnswers0 totalQuestions0 : nat) : number :=
  Math_round (mul (div (of_nat correctAnswers0) (of_nat totalQuestions0)) (of_Z 100)).

Definition build_result (questions0 : list Question) (answers0 : list UserAnswer)
  : QuizResult :=
  let correctAnswers0 := length (List.filter isCorrect answers0) in
  let totalQuestions0 := length questions0 in
  {| totalQuestions := totalQuestions0;
     correctAnswers := correctAnswers0;
     score := compute_score correctAnswers0 totalQuestions0;
     answers := answers0 |}.


Definition finalizeQuiz (answers0 : list UserAnswer) (s : State) : State :=
  set_quizResult (Some (build_result (questions s) answers0))
    (set_userAnswers answers0 s).

(** A sequence of [answerQuestion] calls, each with its question id, the
    selected option and the correct answer. *)
Definition run_answers (ops : list (string * number * number)) (s : State) : State :=
  fold_left (fun st op => answerQuestion op.1.1 op.1.2 op.2 st) ops s.

Definition answer_ids (l : list UserAnswer) : list string := questionId <$> l.

(** [round(100 * c / t)] over the integers, ties upwards. *)
Definition exact_percent (c t : nat) : Z :=
  (200 * Z.of_nat c + Z.of_nat t) / (2 * Z.of_nat t).


End QuizContext.

(** ** Notions used to state further properties of the pipeline *)

Module PipelineNotions.

Import JsNumber Json AiService.

Definition contains (sub s : string) : Prop :=
  exists pre post, s = (pre ++ sub ++ post)%string.

(** The outermost open container of a parser state is an object, or the
    complete value is one. *)
Definition object_at_bottom (st : pstate) : Prop :=
  match st with
  | (EEnd v, _) => exists fields, v = JObject fields
  | (_, stack) => exists inner fields key, stack = (inner ++ [FObject fields key])%list
  end.

(** The two fixed parts of the questions prompt: from the end of the first
    sentence to the second mention of the count, and what follows it. *)
Definition questions_schema : string := dq ".
Return ONLY valid JSON in this exact format with no additional text:
{
  'questions': [
    {
      'id': 'unique-id',
      'question': 'Question text here?',
      'options': ['Option A', 'Option B', 'Option C', 'Option D'],
      'correctAnswer': 0
    }
  ]
}

Requirements:
- Exactly ".

Definition questions_requirements : string := " questions
- Each question must have exactly 4 options
- correctAnswer is the index (0-3) of the correct option
- Questions should be clear, concise, and factually accurate
- Difficulty should be moderate (suitable for general knowledge)
- Avoid ambiguous or trick questions".

(** The prompts of the calls of a history, in order. *)
Fixpoint call_prompts (h : History) : list string :=
  match h with
  | [] => []
  | Call prompt :: rest => prompt :: call_prompts rest
  | _ :: rest => call_prompts rest
  end.

Definition total_delay (h : History) : Z := fold_right Z.add 0 (delays h).

End PipelineNotions.

(** ** Validated questions as [Question] values

    The components take the objects [generateQuestions] returned for
    values of the type [Question], on the word of the type guard
    [validateQuestion]; [as_Question] is that reading of an object: the
    four members the components use, each of the type the interface
    declares. *)

Module QuestionView.

Import JsNumber Json.

Fixpoint strings_of (l : list JSON) : option (list string) :=
  match l with
  | [] => Some []
  | JString s :: rest => option_map (cons s) (strings_of rest)
  | _ :: _ => None
  end.

Definition as_Question (q : JSON) : option QuizContext.Question :=
  match q with
  | JObject fields =>
      match obj_get fields "id", obj_get fields "question",
            obj_get fields "options", obj_get fields "correctAnswer" with
      | Some (JString i), Some (JString t), Some (JArray opts), Some (JNumber n) =>
          option_map (fun os => {| QuizContext.id := i;
                                   QuizContext.question := t;
                                   QuizContext.options := os;
                                   QuizContext.correctAnswer := n |})
                     (strings_of opts)
      | _, _, _, _ => None
      end
  | _ => None
  end.

(** The questions of a response, as the quiz state holds them. *)
Definition as_Questions (l : list JSON) : list QuizContext.Question :=
  omap as_Question l.

End QuestionView.

(** ** The other actions of the quiz provider ([src/context/QuizContext.tsx]) *)

Module QuizActions.

Import JsNumber QuizContext.

Definition setTopic (topic : string) (s : State) : State :=
  {| currentTopic := Some topic; questions := questions s;
     currentQuestionIndex := currentQuestionIndex s;
     userAnswers := userAnswers s; quizResult := quizResult s;
     isLoading := isLoading s; error := None;
     isReviewMode := isReviewMode s; isDarkMode := isDarkMode s |}.

Definition setLoading (loading : bool) (s : State) : State :=
  {| currentTopic := currentTopic s; questions := questions s;
     currentQuestionIndex := currentQuestionIndex s;
     userAnswers := userAnswers s; quizResult := quizResult s;
     isLoading := loading; error := error s;
     isReviewMode := isReviewMode s; isDarkMode := isDarkMode s |}.

Definition setError (e : option string) (s : State) : State :=
  {| currentTopic := currentTopic s; questions := questions s;
     currentQuestionIndex := currentQuestionIndex s;
     userAnswers := userAnswers s; quizResult := quizResult s;
     isLoading := isLoading s; error := e;
     isReviewMode := isReviewMode s; isDarkMode := isDarkMode s |}.

Definition setReviewMode (isReview : bool) (s : State) : State :=
  {| currentTopic := currentTopic s; questions := questions s;
     currentQuestionIndex := if isReview then 0 else currentQuestionIndex s;
     userAnswers := userAnswers s; quizResult := quizResult s;
     isLoading := isLoading s; error := error s;
     isReviewMode := isReview; isDarkMode := isDarkMode s |}.






(** [userAnswers.find(a => a.questionId === id)]. *)
Definition find_answer (qid : string) (l : list UserAnswer) : option UserAnswer :=
  snd <$> list_find (fun a => questionId a = qid) l.

(** [questions[currentQuestionIndex]]. *)
Definition currentQuestion (s : State) : option Question :=
  if currentQuestionIndex s <? 0 then None
  else questions s !! Z.to_nat (currentQuestionIndex s).

End QuizActions.

(** ** The results screen ([src/components/ResultsScreen.tsx]) *)

Module ResultsScreen.

Import JsNumber Json AiService.

Definition getScoreEmoji (score : number) : string :=
  if strict_equals score (of_Z 100) then "🏆"
  else if ge score (of_Z 80) then "🎉"
  else if ge score (of_Z 60) then "👍"
  else if ge score (of_Z 40) then "💪"
  else "📚".

Definition getScoreColor (score : number) : string :=
  if strict_equals score (of_Z 100) then "#f6ad55"
  else if ge score (of_Z 80) then "#48bb78"
  else if ge score (of_Z 60) then "#4299e1"
  else if ge score (of_Z 40) then "#ed8936"
  else "#fc8181".

(** The state of the component and the route shown. *)
Record View := {
  feedback : string;
  loadingFeedback : bool;
  hasFetched : bool;
  route : string
}.

(** The request that [loadFeedback] builds: [currentTopic || 'this topic']
    and the three figures of the result. *)
Definition feedback_request
  (currentTopic : option string) (r : QuizContext.QuizResult)
  : GenerateFeedbackRequest :=
  {| fb_topic := match currentTopic with
                 | Some t => if String.eqb t EmptyString then "this topic" else t
                 | None => "this topic"
                 end;
     score := QuizContext.score r;
     totalQuestions := of_nat (QuizContext.totalQuestions r);
     correctAnswers := of_nat (QuizContext.correctAnswers r) |}.

Section Engine.

Variable SyntaxError_message : string -> string.
Variable TypeError_message : string -> string.

Definition loadFeedback (endpoint : Endpoint)
  (currentTopic : option string) (r : QuizContext.QuizResult)
  (v : View) (h : History) : View * History :=
  match generateFeedback SyntaxError_message TypeError_message endpoint
          (feedback_request currentTopic r) h with
  | (Ok response, h') =>
      ({| feedback := fb_message response; loadingFeedback := false;
          hasFetched := hasFetched v; route := route v |}, h')
  | (Throw error, h') =>
      ({| feedback := EmptyString; loadingFeedback := false;
          hasFetched := hasFetched v; route := route v |},
       (h' ++ [Console Err [Text "Failed to load feedback:"; Value error]])%list)
  end.

(** The effect that runs when the screen is mounted. *)
Definition on_mount (endpoint : Endpoint) (ctx : QuizContext.State)
  (v : View) (h : History) : View * History :=
  match QuizContext.quizResult ctx with
  | None =>
      ({| feedback := feedback v; loadingFeedback := loadingFeedback v;
          hasFetched := hasFetched v; route := "/" |}, h)
  | Some r =>
      if hasFetched v then (v, h)
      else loadFeedback endpoint (QuizContext.currentTopic ctx) r
             {| feedback := feedback v; loadingFeedback := true;
                hasFetched := true; route := route v |} h
  end.

End Engine.

Definition handleTryAgain (ctx : QuizContext.State) (v : View)
  : QuizContext.State * View :=
  (QuizContext.resetQuiz ctx,
   {| feedback := feedback v; loadingFeedback := loadingFeedback v;
      hasFetched := hasFetched v; route := "/" |}).

Definition handleReviewAnswers (ctx : QuizContext.State) (v : View)
  : QuizContext.State * View :=
  (QuizActions.setReviewMode true ctx,
   {| feedback := feedback v; loadingFeedback := loadingFeedback v;
      hasFetched := hasFetched v; route := "/quiz" |}).

(** The answer summary: for each question, whether the answer found for
    its id is correct, [userAnswer?.isCorrect ?? false]. *)
Definition review_grid (questions0 : list QuizContext.Question)
  (r : QuizContext.QuizResult) : list bool :=
  map (fun q =>
         match QuizActions.find_answer (QuizContext.id q) (QuizContext.answers r) with
         | Some a => QuizContext.isCorrect a
         | None => false
         end)
      questions0.

(** The state of a freshly mounted screen. *)
Definition fresh (path : string) : View :=
  {| feedback := EmptyString; loadingFeedback := true;
     hasFetched := false; route := path |}.

End ResultsScreen.

(** ** The loading screen ([QuizLoading]) *)

Module QuizLoading.

Import JsNumber Json AiService QuestionView.

(** The quiz state, the route shown, the flag [hasLoadedRef] and the
    timer the screen may have set (its delay and where it navigates). *)
Record Page := {
  ctx : QuizContext.State;
  route : string;
  hasLoaded : bool;
  timer : option (Z * string)
}.

Section Engine.

Variable SyntaxError_message : string -> string.
Variable TypeError_message : string -> string.

(** [loadQuestions]; the result is [Throw] where the function itself
    would reject, which is on reading [message] of [undefined]. *)
Definition loadQuestions (endpoint : Endpoint) (p : Page) (h : History)
  : Result unit * Page * History :=
  let topic_given :=
    match QuizContext.currentTopic (ctx p) with
    | Some t => if String.eqb t EmptyString then None else Some t
    | None => None
    end in
  match topic_given with
  | None =>
      (Ok tt, {| ctx := ctx p; route := "/"; hasLoaded := hasLoaded p;
                 timer := timer p |}, h)
  | Some currentTopic =>
      let ctx1 := QuizActions.setError None (QuizActions.setLoading true (ctx p)) in
      match generateQuestions SyntaxError_message TypeError_message endpoint
              {| topic := currentTopic;
                 count := of_Z (QUESTIONS_PER_QUIZ QUIZ_CONFIG) |} h with
      | (Ok response, h') =>
          (Ok tt,
           {| ctx := QuizActions.setLoading false
                       (QuizContext.setQuestions (as_Questions (questions response)) ctx1);
              route := route p; hasLoaded := true;
              timer := Some (500, "/quiz"%string) |}, h')
      | (Throw err, h') =>
          match err with
          | ThrownUndefined =>
              (Throw (ThrownError TypeError (TypeError_message "message")),
               {| ctx := ctx1; route := route p; hasLoaded := true;
                  timer := timer p |}, h')
          | _ =>
              let shown :=
                match message_of err with
                | Some m => if String.eqb m EmptyString
                            then "Failed to generate questions. Please try again."
                            else m
                | None => "Failed to generate questions. Please try again."
                end in
              (Ok tt,
               {| ctx := QuizActions.setLoading false
                           (QuizActions.setError (Some shown) ctx1);
                  route := route p; hasLoaded := false; timer := timer p |}, h')
          end
      end
  end.

(** The effect of the screen: nothing when the questions were asked for
    already. *)
Definition on_mount (endpoint : Endpoint) (p : Page) (h : History)
  : Result unit * Page * History :=
  if hasLoaded p then (Ok tt, p, h) else loadQuestions endpoint p h.

End Engine.

End QuizLoading.

(** ** The quiz screen ([src/components/QuizScreen.tsx]) *)

Module QuizScreen.

Import JsNumber QuizContext QuizActions.

(** The quiz state, the option held by the component and the route. *)
Record Screen := {
  ctx : State;
  selectedOption : option number;
  route : string
}.

Definition isLastQuestion (s : State) : bool :=
  currentQuestionIndex s =? Z.of_nat (length (questions s)) - 1.

(** [userAnswers.find(a => a.questionId === currentQuestion?.id)]: no
    answer carries the id of a question that is not there. *)
Definition userAnswer (s : State) : option UserAnswer :=
  match currentQuestion s with
  | Some q => find_answer (id q) (userAnswers s)
  | None => None
  end.

(** The effect that loads the existing answer,
    [existingAnswer?.selectedOption ?? null]. *)
Definition loadExistingAnswer (v : Screen) : Screen :=
  {| ctx := ctx v;
     selectedOption := QuizContext.selectedOption <$> userAnswer (ctx v);
     route := route v |}.

Definition handleOptionSelect (currentQuestion0 : Question) (optionIndex : nat)
  (v : Screen) : Screen :=
  if isReviewMode (ctx v) then v
  else {| ctx := answerQuestion (id currentQuestion0) (of_nat optionIndex)
                   (correctAnswer currentQuestion0) (ctx v);
          selectedOption := Some (of_nat optionIndex);
          route := route v |}.

(** The answers [handleNext] builds for the last question from the
    answers it sees. *)
Definition finalAnswers (currentQuestion0 : Question) (selected : option number)
  (userAnswers0 : list UserAnswer) : list UserAnswer :=
  let existing :=
    list_find (fun a => questionId a = id currentQuestion0) userAnswers0 in
  let chosen :=
    match selected with
    | Some o => o
    | None => match existing with
              | Some (_, a) => QuizContext.selectedOption a
              | None => of_Z (-1)
              end
    end in
  let finalAnswer :=
    {| questionId := id currentQuestion0;
       QuizContext.selectedOption := chosen;
       isCorrect := strict_equals chosen (correctAnswer currentQuestion0) |} in
  match existing with
  | Some (existingIndex, _) => <[existingIndex := finalAnswer]> userAnswers0
  | None => (userAnswers0 ++ [finalAnswer])%list
  end.

Definition handleNext (currentQuestion0 : Question) (v : Screen) : Screen :=
  let s := ctx v in
  if isReviewMode s then
    if isLastQuestion s
    then {| ctx := s; selectedOption := selectedOption v; route := "/results" |}
    else {| ctx := nextQuestion s; selectedOption := selectedOption v;
            route := route v |}
  else if isLastQuestion s then
    let recorded :=
      match selectedOption v with
      | Some o => answerQuestion (id currentQuestion0) o
                    (correctAnswer currentQuestion0) s
      | None => s
      end in
    {| ctx := finalizeQuiz
                (finalAnswers currentQuestion0 (selectedOption v) (userAnswers s))
                recorded;
       selectedOption := selectedOption v; route := "/results" |}
  else {| ctx := nextQuestion s; selectedOption := selectedOption v;
          route := route v |}.

Definition handlePrevious (v : Screen) : Screen :=
  {| ctx := previousQuestion (ctx v); selectedOption := selectedOption v;
     route := route v |}.

Definition handleExitReview (v : Screen) : Screen :=
  {| ctx := setReviewMode false (ctx v); selectedOption := selectedOption v;
     route := "/results" |}.

Definition canProceed (v : Screen) : bool :=
  match selectedOption v with
  | Some _ => true
  | None => isReviewMode (ctx v)
  end.

(** What the user can do on the screen: press an option, Next, Previous
    or, in the banner of the review mode, Back to Results. *)
Inductive Event :=
  | Select (optionIndex : nat)
  | Next
  | Previous
  | ExitReview.

(** One event on the screen.  The screen exists on its route only, and
    without a current question it renders nothing and goes back to the
    topic selection.  There is one option button for each option of the
    question, Next is disabled unless [canProceed], Previous is disabled
    on the first question and the banner is there in review mode only.
    The effect runs after the handler. *)
Definition handle (e : Event) (v : Screen) : Screen :=
  if negb (String.eqb (route v) "/quiz") then v
  else
    match currentQuestion (ctx v) with
    | None => {| ctx := ctx v; selectedOption := selectedOption v; route := "/" |}
    | Some q =>
        loadExistingAnswer
          match e with
          | Select optionIndex =>
              if (optionIndex <? length (options q))%nat
              then handleOptionSelect q optionIndex v
              else v
          | Next => if canProceed v then handleNext q v else v
          | Previous =>
              if currentQuestionIndex (ctx v) =? 0 then v else handlePrevious v
          | ExitReview =>
              if isReviewMode (ctx v) then handleExitReview v else v
          end
    end.

Definition play (events : list Event) (v : Screen) : Screen :=
  fold_left (fun st e => handle e st) events v.

(** The screen as it is mounted on a quiz state: with no current
    question it goes back to the topic selection. *)
Definition mount (s : State) : Screen :=
  match currentQuestion s with
  | None => {| ctx := s; selectedOption := None; route := "/" |}
  | Some _ =>
      loadExistingAnswer {| ctx := s; selectedOption := None; route := "/quiz" |}
  end.

(** Answering each question in turn: press an option, then Next. *)
Definition take_quiz (picks : list nat) : list Event :=
  flat_map (fun optionIndex => [Select optionIndex; Next]) picks.

(** The answer that choosing an option of a question records. *)
Definition answer_of (q : Question) (optionIndex : nat) : UserAnswer :=
  {| questionId := id q;
     QuizContext.selectedOption := of_nat optionIndex;
     isCorrect := strict_equals (of_nat optionIndex) (correctAnswer q) |}.

(** The calls of [answerQuestion] made by choosing one option for each
    question. *)
Definition answer_calls (qs : list Question) (picks : list nat)
  : list (string * number * number) :=
  zip_with (fun q optionIndex => (id q, of_nat optionIndex, correctAnswer q))
           qs picks.

End QuizScreen.

(** ** Checks used for the results screen *)

Module ResultsChecks.

Import JsNumber QuizContext ResultsScreen.

(** The trophy is shown exactly for a quiz answered without error. *)
Definition trophy_agrees (t c : nat) : bool :=
  Bool.eqb (String.eqb (getScoreEmoji (compute_score c t)) "🏆") (Nat.eqb c t).

(** The number of check marks in the answer summary. *)
Definition marks (grid : list bool) : nat := length (List.filter (fun b => b) grid).

End ResultsChecks.

(** ** A sample quiz *)

Module QuizSamples.

Import JsNumber QuizContext.

Definition capital_question : Question :=
  {| id := "q1"; question := "What is the capital of France?";
     options := ["Berlin"; "Paris"; "Rome"; "Madrid"];
     correctAnswer := of_Z 1 |}.

Definition planet_question : Question :=
  {| id := "q2"; question := "Which planet is known as the Red Planet?";
     options := ["Venus"; "Jupiter"; "Mars"; "Saturn"];
     correctAnswer := of_Z 2 |}.

End QuizSamples.

(** ** Sample inputs *)

Module Samples.

Import JsNumber Json AiService.

(** An engine whose own errors read as follows. *)
Definition SyntaxError_text (text : string) : string :=
  "Unexpected token in JSON".
Definition TypeError_text (key : string) : string :=
  "Cannot read properties of null (reading '" ++ key ++ "')".

Definition wrapped_message : string := dq "Sure! {'message':'hi'} thanks".

Definition two_objects : string := dq "{'a':1} and {'b':2}".

Definition well_formed_question : string :=
  dq "{'id':'q1','question':'2+2?','options':['1','2','3','4'],'correctAnswer':3}".

Definition missing_correctAnswer : string :=
  dq "{'id':'q1','question':'2+2?','options':['1','2','3','4']}".

Definition three_options : string :=
  dq "{'id':'q1','question':'2+2?','options':['1','2','3'],'correctAnswer':2}".

Definition correctAnswer_four : string :=
  dq "{'id':'q1','question':'2+2?','options':['1','2','3','4'],'correctAnswer':4}".

Definition fractional_correctAnswer : string :=
  dq "{'id':'q1','question':'2+2?','options':['1','2','3','4'],'correctAnswer':1.5}".

Definition fractional_question : JSON :=
  JObject [("id", JString "q1"); ("question", JString "2+2?");
           ("options", JArray [JString "1"; JString "2"; JString "3"; JString "4"]);
           ("correctAnswer", JNumber (of_decimal false 15 (-1)))].

(** A response with a single valid question, wrapped in prose. *)
Definition one_question_response : string :=
  "Here you go: " ++ dq "{'questions':[" ++ well_formed_question ++ "]}" ++ " Enjoy!".

Definition one_question : list JSON :=
  [JObject [("id", JString "q1"); ("question", JString "2+2?");
            ("options", JArray [JString "1"; JString "2"; JString "3"; JString "4"]);
            ("correctAnswer", JNumber (of_Z 3))]].

(** An endpoint that is unreachable twice and then answers. *)
Definition flaky_endpoint : Endpoint :=
  fun n _ =>
    match n with
    | 0%nat | 1%nat => Throw (ThrownError Error "Gemini API error: 503 Service Unavailable")
    | _ => Ok one_question_response
    end.


Definition feedback_endpoint : Endpoint :=
  fun _ _ => Ok (dq "Of course! {'message':'Well done, keep going.'}").

Definition flaky_operation (n : nat) : Result string :=
  match n with
  | 0%nat => Throw (ThrownError Error "first")
  | 1%nat => Throw (ThrownError Error "second")
  | _ => Ok "done"
  end.

Definition science_request : GenerateQuestionsRequest :=
  {| topic := "Science"; count := of_Z 5 |}.

Definition feedback_request : GenerateFeedbackRequest :=
  {| fb_topic := "Science"; score := of_Z 60;
     totalQuestions := of_Z 5; correctAnswers := of_Z 3 |}.

End Samples.

(** * Properties *)

(** ** JSON extraction *)

Module ExtractionFacts.

Import JsNumber Json AiService.

Lemma append_assoc (a b c : string) : (a ++ b) ++ c = a ++ (b ++ c).
Proof.
  induction a as [|x a IH]; simpl; [reflexivity | now rewrite IH].
Qed.

Lemma has_char_app (c : Z) (a b : string) :
  has_char c (a ++ b) = has_char c a || has_char c b.
Proof.
  induction a as [|x a IH]; simpl; [reflexivity|].
  rewrite IH. now rewrite orb_assoc.
Qed.

Lemma after_first_open_app (pre rest : string) :
  has_char 123 pre = false ->
  after_first_open (pre ++ String (char 123) rest) = Some rest.
Proof.
  induction pre as [|x pre IH]; simpl; intros H.
  - reflexivity.
  - apply orb_false_iff in H as [Hx Hpre].
    rewrite Hx. now apply IH.
Qed.

(** The text after the first opening brace, with what precedes it. *)
Lemma after_first_open_inv (s rest : string) :
  after_first_open s = Some rest ->
  exists pre, s = pre ++ String (char 123) rest /\ has_char 123 pre = false.
Proof.
  revert rest. induction s as [|x s IH]; simpl; intros rest H; [discriminate|].
  destruct (char_code x =? 123) eqn:Hx.
  - inversion H; subst. exists EmptyString. split; [|reflexivity].
    simpl. f_equal. apply Z.eqb_eq in Hx. unfold char_code in Hx.
    unfold char. rewrite <- Hx, N2Z.id. now rewrite ascii_N_embedding.
  - destruct (IH _ H) as (pre & -> & Hpre).
    exists (String x pre). split; [reflexivity|]. simpl. now rewrite Hx.
Qed.

Lemma after_first_open_none (s : string) :
  after_first_open s = None <-> has_char 123 s = false.
Proof.
  induction s as [|x s IH]; simpl; [tauto|].
  destruct (char_code x =? 123); simpl; [split; discriminate | exact IH].
Qed.

Lemma upto_last_close_none (s : string) :
  upto_last_close s = None <-> has_char 125 s = false.
Proof.
  induction s as [|x s IH]; simpl; [tauto|].
  destruct (upto_last_close s) as [p|].
  - split; [discriminate|]. intros H. apply orb_false_iff in H as [_ H].
    apply IH in H. discriminate.
  - destruct (char_code x =? 125); simpl; [split; discriminate|].
    split; intros _; [now apply IH | reflexivity].
Qed.

Lemma upto_last_close_app (mid post : string) :
  has_char 125 post = false ->
  upto_last_close (mid ++ String (char 125) post)
  = Some (mid ++ String (char 125) EmptyString).
Proof.
  intros Hpost. induction mid as [|x mid IH]; simpl.
  - apply upto_last_close_none in Hpost. now rewrite Hpost.
  - now rewrite IH.
Qed.

Lemma upto_last_close_inv (s p : string) :
  upto_last_close s = Some p ->
  exists mid post, s = mid ++ String (char 125) post
                   /\ p = mid ++ String (char 125) EmptyString
                   /\ has_char 125 post = false.
Proof.
  revert p. induction s as [|x s IH]; simpl; intros p H; [discriminate|].
  destruct (upto_last_close s) as [q|] eqn:Hq.
  - inversion H; subst. destruct (IH _ eq_refl) as (mid & post & -> & -> & Hpost).
    exists (String x mid), post. now repeat split.
  - destruct (char_code x =? 125) eqn:Hx; [|discriminate].
    inversion H; subst. exists EmptyString, s. simpl.
    apply Z.eqb_eq in Hx. unfold char_code in Hx.
    assert (x = char 125) as ->.
    { unfold char. rewrite <- Hx, N2Z.id. now rewrite ascii_N_embedding. }
    repeat split. now apply upto_last_close_none.
Qed.

(** The match starts at the first opening brace and ends at the last
    closing brace of the text. *)
Lemma match_braces_span (pre mid post : string) :
  has_char 123 pre = false ->
  has_char 125 post = false ->
  match_braces (pre ++ "{" ++ mid ++ "}" ++ post) = Some ("{" ++ mid ++ "}").
Proof.
  intros Hpre Hpost. unfold match_braces.
  change ("{" ++ mid ++ "}" ++ post) with (String (char 123) (mid ++ String (char 125) post)).
  rewrite after_first_open_app by assumption.
  rewrite upto_last_close_app by assumption. reflexivity.
Qed.

Lemma after_first_open_suffix (a b : string) :
  exists k, after_first_open (a ++ String (char 123) b) = Some (k ++ b).
Proof.
  induction a as [|x a [k IH]]; simpl.
  - now exists EmptyString.
  - destruct (char_code x =? 123).
    + exists (a ++ String (char 123) EmptyString).
      now rewrite append_assoc.
    + now exists k.
Qed.

Lemma match_braces_none (text : string) :
  match_braces text = None ->
  forall pre mid post, text <> pre ++ "{" ++ mid ++ "}" ++ post.
Proof.
  unfold match_braces. intros H pre mid post ->.
  destruct (after_first_open_suffix pre (mid ++ "}" ++ post)) as [k Hk].
  change (pre ++ "{" ++ mid ++ "}" ++ post)
    with (pre ++ String (char 123) (mid ++ "}" ++ post)) in H.
  rewrite Hk in H.
  destruct (upto_last_close _) eqn:Hclose; [discriminate|].
  apply upto_last_close_none in Hclose.
  rewrite !has_char_app in Hclose. simpl in Hclose.
  now rewrite !orb_true_r in Hclose.
Qed.

Section Extraction.

Variable SyntaxError_message : string -> string.

Local Abbreviation extractJSON := (extractJSON SyntaxError_message).
Local Abbreviation parse := (parse SyntaxError_message).

Lemma extractJSON_span (pre mid post : string) :
  has_char 123 pre = false ->
  has_char 125 post = false ->
  extractJSON (pre ++ "{" ++ mid ++ "}" ++ post) = parse ("{" ++ mid ++ "}").
Proof.
  intros Hpre Hpost. unfold AiService.extractJSON.
  now rewrite match_braces_span.
Qed.

Lemma extractJSON_no_match (text : string) :
  (forall pre mid post, text <> pre ++ "{" ++ mid ++ "}" ++ post) ->
  extractJSON text = Throw (ThrownError Error "No JSON found in AI response").
Proof.
  intros H. unfold AiService.extractJSON.
  destruct (match_braces text) as [m|] eqn:Hm; [|reflexivity].
  exfalso. unfold match_braces in Hm.
  destruct (after_first_open text) as [rest|] eqn:Hopen; [|discriminate].
  destruct (upto_last_close rest) as [p|] eqn:Hclose; [|discriminate].
  apply after_first_open_inv in Hopen as (pre & -> & _).
  apply upto_last_close_inv in Hclose as (mid & post & -> & _ & _).
  now apply (H pre mid post).
Qed.

Lemma extractJSON_no_open (text : string) :
  has_char 123 text = false ->
  extractJSON text = Throw (ThrownError Error "No JSON found in AI response").
Proof.
  intros H. unfold AiService.extractJSON, match_braces.
  apply after_first_open_none in H. now rewrite H.
Qed.

(** C1, as amended: the extraction takes the span from the first opening
    brace of the text to its last closing brace, parses it and returns
    the parsed value; without such a span it fails with the error
    "No JSON found in AI response", and when the span does not parse the
    parser's error is the failure.  The wrapped message of the
    specification yields the object with the single member [message],
    and a text without an opening or without a closing brace fails. *)
Theorem extractJSON_first_to_last_brace (text : string) :
  (forall pre mid post,
      text = pre ++ "{" ++ mid ++ "}" ++ post ->
      has_char 123 pre = false ->
      has_char 125 post = false ->
      extractJSON text = parse ("{" ++ mid ++ "}"))
  /\ (forall span v, JSON_parse span = Some v -> parse span = Ok v)
  /\ (forall span, JSON_parse span = None -> failed (parse span))
  /\ ((forall pre mid post, text <> pre ++ "{" ++ mid ++ "}" ++ post) ->
      extractJSON text = Throw (ThrownError Error "No JSON found in AI response"))
  /\ (has_char 123 text = false \/ has_char 125 text = false ->
      extractJSON text = Throw (ThrownError Error "No JSON found in AI response"))
  /\ extractJSON Samples.wrapped_message = Ok (JObject [("message", JString "hi")]).
Proof.
  split; [|split; [|split; [|split; [|split]]]].
  - intros pre mid post -> Hpre Hpost. now apply extractJSON_span.
  - intros span v H. unfold AiService.parse. now rewrite H.
  - intros span H. unfold AiService.parse. rewrite H. now eexists.
  - apply extractJSON_no_match.
  - intros [H|H]; [now apply extractJSON_no_open|].
    apply extractJSON_no_match. intros pre mid post ->.
    rewrite !has_char_app in H. simpl in H.
    now rewrite !orb_true_r in H.
  - reflexivity.
Qed.

End Extraction.

Lemma extractJSON_first_to_last_brace_witness :
  extractJSON Samples.SyntaxError_text Samples.wrapped_message
  = parse Samples.SyntaxError_text (dq "{'message':'hi'}").
Proof.
  apply (proj1 (extractJSON_first_to_last_brace Samples.SyntaxError_text
                  Samples.wrapped_message)
           "Sure! " (dq "'message':'hi'") " thanks");
    reflexivity.
Defined.

(** C1, as stated, fails on a text with two objects: the balanced span of
    the first object parses, the extraction of the program does not. *)
Lemma extractJSON_balanced_span_counterexample :
  spec_extractJSON Samples.SyntaxError_text Samples.two_objects
  = Ok (JObject [("a", JNumber (of_Z 1))])
  /\ extractJSON Samples.SyntaxError_text Samples.two_objects
     = Throw (ThrownError SyntaxError
                (Samples.SyntaxError_text Samples.two_objects)).
Proof. split; reflexivity. Qed.

End ExtractionFacts.

(** ** Question validation *)

Module ValidationFacts.

Import JsNumber Json AiService.

(** The option indices are within the range the validator accepts. *)
Lemma option_index_in_range (n : number) :
  option_index n -> ge n (of_Z 0) && le n (of_Z 3) = true.
Proof.
  intros (i & Hi & ->).
  assert (i = 0 \/ i = 1 \/ i = 2 \/ i = 3) as [->|[->|[->| ->]]] by lia;
    reflexivity.
Qed.

(** The range test also holds of numbers that are no index. *)
Lemma in_range_not_integer :
  let n := of_decimal false 15 (-1) in
  ge n (of_Z 0) && le n (of_Z 3) = true /\ isInteger n = false.
Proof. split; reflexivity. Qed.

Section Validation.

Variable TypeError_message : string -> string.

Local Abbreviation validateQuestion := (validateQuestion TypeError_message).

(** What the validator computes on an object. *)
Lemma validateQuestion_object (fields : list (string * JSON)) :
  validateQuestion (JObject fields)
  = Ok (is_string (obj_get fields "id")
        && is_string (obj_get fields "question")
        && match obj_get fields "options" with
           | Some (JArray opts) =>
               Nat.eqb (length opts) 4
               && forallb (fun opt => is_string (Some opt)) opts
           | _ => false
           end
        && match obj_get fields "correctAnswer" with
           | Some (JNumber n) => ge n (of_Z 0) && le n (of_Z 3)
           | _ => false
           end).
Proof.
  unfold AiService.validateQuestion, read, rbind. simpl.
  destruct (is_string (obj_get fields "id")); simpl; [|reflexivity].
  destruct (is_string (obj_get fields "question")); simpl; [|reflexivity].
  destruct (obj_get fields "options") as [[| | | |opts|]|]; try reflexivity.
  destruct (Nat.eqb (length opts) 4); simpl; [|reflexivity].
  destruct (forallb _ opts); simpl; [|reflexivity].
  destruct (obj_get fields "correctAnswer") as [[| |n| | |]|]; reflexivity.
Qed.

(** An object is accepted exactly when [id] and [question] are strings,
    [options] is an array of four strings and [correctAnswer] is a number
    between 0 and 3, integral or not. *)
Lemma validateQuestion_accepts_iff (fields : list (string * JSON)) :
  validateQuestion (JObject fields) = Ok true
  <-> (exists s, obj_get fields "id" = Some (JString s))
      /\ (exists s, obj_get fields "question" = Some (JString s))
      /\ (exists opts, obj_get fields "options" = Some (JArray opts)
                       /\ length opts = 4%nat
                       /\ Forall (fun opt => exists s, opt = JString s) opts)
      /\ (exists n, obj_get fields "correctAnswer" = Some (JNumber n)
                    /\ ge n (of_Z 0) = true /\ le n (of_Z 3) = true).
Proof.
  rewrite validateQuestion_object. split.
  - intros H. injection H as H.
    apply andb_true_iff in H as [H Hca].
    apply andb_true_iff in H as [H Hopts].
    apply andb_true_iff in H as [Hid Hq].
    repeat split.
    + destruct (obj_get fields "id") as [[]|]; try discriminate. now eexists.
    + destruct (obj_get fields "question") as [[]|]; try discriminate. now eexists.
    + destruct (obj_get fields "options") as [[| | | |opts|]|]; try discriminate.
      apply andb_true_iff in Hopts as [Hlen Hall].
      exists opts. repeat split.
      * now apply Nat.eqb_eq.
      * apply List.Forall_forall. intros opt Hin.
        rewrite forallb_forall in Hall. specialize (Hall opt Hin).
        destruct opt; try discriminate. now eexists.
    + destruct (obj_get fields "correctAnswer") as [[| |n| | |]|]; try discriminate.
      apply andb_true_iff in Hca as [? ?]. now exists n.
  - intros ((s & ->) & (s' & ->) & (opts & -> & Hlen & Hall) & (n & -> & Hge & Hle)).
    cbv beta iota. rewrite Hlen, Hge, Hle. simpl.
    replace (forallb _ opts) with true; [reflexivity|].
    symmetry. apply forallb_forall. intros opt Hin.
    rewrite List.Forall_forall in Hall. now destruct (Hall opt Hin) as [? ->].
Qed.

(** The four cases the specification lists. *)
Lemma validateQuestion_examples :
  (forall q, JSON_parse Samples.missing_correctAnswer = Some q ->
             validateQuestion q = Ok false)
  /\ (forall q, JSON_parse Samples.three_options = Some q ->
                validateQuestion q = Ok false)
  /\ (forall q, JSON_parse Samples.correctAnswer_four = Some q ->
                validateQuestion q = Ok false)
  /\ (forall q, JSON_parse Samples.well_formed_question = Some q ->
                validateQuestion q = Ok true).
Proof.
  repeat split; intros q H; vm_compute in H; injection H as <-; reflexivity.
Qed.

(** With an index as [correctAnswer] the validator is as the
    specification describes it. *)
Lemma validateQuestion_index (fields : list (string * JSON)) (n : number) :
  obj_get fields "correctAnswer" = Some (JNumber n) ->
  option_index n ->
  validateQuestion (JObject fields)
  = Ok (is_string (obj_get fields "id")
        && is_string (obj_get fields "question")
        && match obj_get fields "options" with
           | Some (JArray opts) =>
               Nat.eqb (length opts) 4
               && forallb (fun opt => is_string (Some opt)) opts
           | _ => false
           end).
Proof.
  intros Hca Hn. rewrite validateQuestion_object, Hca.
  rewrite (option_index_in_range n Hn). now rewrite andb_true_r.
Qed.

(** C2: the validator accepts a question whose [correctAnswer] is 1.5:
    every other field has the required shape, the number lies between 0
    and 3, and it is not an integer. *)
Theorem validateQuestion_accepts_fractional_correctAnswer :
  JSON_parse Samples.fractional_correctAnswer = Some Samples.fractional_question
  /\ validateQuestion Samples.fractional_question = Ok true
  /\ get_prop Samples.fractional_question "correctAnswer"
     = Some (Some (JNumber (of_decimal false 15 (-1))))
  /\ isInteger (of_decimal false 15 (-1)) = false
  /\ ~ option_index (of_decimal false 15 (-1)).
Proof.
  repeat split; try reflexivity.
  intros (i & Hi & H).
  assert (i = 0 \/ i = 1 \/ i = 2 \/ i = 3) as [->|[->|[->| ->]]] by lia;
    discriminate.
Qed.

End Validation.

End ValidationFacts.

(** ** Retries *)

Module RetryFacts.

Import JsNumber Json AiService.

Local Open Scope list_scope.

Lemma calls_app (h h' : History) : calls (h ++ h') = (calls h + calls h')%nat.
Proof. unfold calls. now rewrite List.filter_app, length_app. Qed.


Lemma delays_app (h h' : History) : delays (h ++ h') = (delays h ++ delays h')%list.
Proof.
  induction h as [|[] h IH]; simpl; try assumption; [reflexivity|].
  now rewrite IH.
Qed.

Lemma warnings_app (h h' : History) :
  warnings (h ++ h') = (warnings h ++ warnings h')%list.
Proof.
  induction h as [|[| | |[] args] h IH]; simpl; try assumption; [reflexivity|].
  now rewrite IH.
Qed.

Ltac history_simpl :=
  rewrite ?calls_app, ?delays_app, ?warnings_app;
  cbn [calls List.filter is_call length delays warnings app Nat.add];
  rewrite ?app_nil_r.

Section Pipeline.

Variable SyntaxError_message : string -> string.
Variable TypeError_message : string -> string.
Variable endpoint : Endpoint.
Variable prompt : string.
Variable count : number.

Local Abbreviation outcome n :=
  (response_outcome SyntaxError_message TypeError_message (endpoint n prompt)).

(** One attempt: its result is the outcome of the call it makes, which is
    the only call; it waits for nothing, and warns only when it succeeds
    with another number of questions than requested. *)
Lemma attempt_questions_run (attempt : Z) (h : History) :
  exists extra,
    attempt_questions SyntaxError_message TypeError_message
      endpoint prompt count attempt h
    = (outcome (calls h), (h ++ extra)%list)
    /\ calls extra = 1%nat
    /\ delays extra = []
    /\ warnings extra
       = match outcome (calls h) with
         | Ok r => length_warnings count (questions r)
         | Throw _ => []
         end.
Proof.
  unfold attempt_questions, response_outcome, bind, console_log, emit,
    callGeminiAPI, lift, rbind.
  rewrite calls_app. simpl calls at 2. rewrite Nat.add_0_r.
  destruct (endpoint (calls h) prompt) as [text|e].
  2:{ eexists. rewrite <- app_assoc. split; [reflexivity|]. now repeat split. }
  destruct (extractJSON SyntaxError_message text) as [result|e].
  2:{ eexists. rewrite <- app_assoc. split; [reflexivity|]. now repeat split. }
  destruct (read TypeError_message result "questions") as [field|e].
  2:{ eexists. rewrite <- app_assoc. split; [reflexivity|]. now repeat split. }
  assert (Hbad :
    exists extra : History,
      (@Throw GenerateQuestionsResponse
         (ThrownError Error "Invalid response format from AI"),
       ((h ++ [Console Log [Text ("🔄 Attempt " ++ string_of_Z (attempt + 1)
                                   ++ ": Calling Gemini API...")%string]])
           ++ [Call prompt])%list)
      = (Throw (ThrownError Error "Invalid response format from AI"),
         (h ++ extra)%list)
      /\ calls extra = 1%nat /\ delays extra = [] /\ warnings extra = []).
  { eexists. rewrite <- app_assoc. split; [reflexivity|]. now repeat split. }
  destruct field as [[| | | |qs|]|]; try exact Hbad. clear Hbad.
  destruct (every_validateQuestion TypeError_message qs) as [[|]|e]; simpl.
  - unfold throw, console_warn, emit, ret, length_warnings.
    destruct (negb (strict_equals (of_nat (length qs)) count)); simpl;
      eexists; rewrite <- !app_assoc; (split; [reflexivity|]); now repeat split.
  - eexists. rewrite <- app_assoc. split; [reflexivity|]. now repeat split.
  - eexists. rewrite <- app_assoc. split; [reflexivity|]. now repeat split.
Qed.

Variable max_retries retry_delay : Z.

Local Abbreviation loop :=
  (generateQuestions_loop SyntaxError_message TypeError_message
     endpoint prompt count max_retries retry_delay).

(** What the [catch] block does before the next iteration. *)
Lemma loop_failed_attempt (fuel : nat) (attempt : Z) (lastError : option Thrown)
  (h : History) (e : Thrown) :
  outcome (calls h) = Throw e ->
  exists h1,
    loop (S fuel) attempt lastError h = loop fuel (attempt + 1) (Some e) h1
    /\ calls h1 = S (calls h)
    /\ delays h1 = delays h
                   ++ (if attempt <? max_retries - 1
                       then [retry_delay * 2 ^ attempt] else [])
    /\ warnings h1 = warnings h.
Proof.
  intros He.
  destruct (attempt_questions_run attempt h) as (extra & Hrun & Hc & Hd & Hw).
  rewrite He in Hrun, Hw.
  cbn [generateQuestions_loop]. unfold try_catch at 1. rewrite Hrun.
  unfold bind at 1. unfold console_error at 1, emit at 1.
  unfold bind at 1.
  destruct (attempt <? max_retries - 1).
  - unfold bind at 1. unfold console_log at 1, emit at 1.
    unfold delay at 1, emit at 1.
    eexists. split; [reflexivity|].
    history_simpl. rewrite Hc, Hd, Hw. history_simpl. repeat split. lia.
  - unfold ret at 1.
    eexists. split; [reflexivity|].
    history_simpl. rewrite Hc, Hd, Hw. history_simpl. repeat split. lia.
Qed.

(** The first attempt that succeeds ends the loop; every attempt before it
    was followed by its backoff delay. *)
Lemma loop_success_at (k : nat) :
  forall (fuel : nat) (attempt : Z) (lastError : option Thrown) (h : History)
         (r : GenerateQuestionsResponse),
    (k < fuel)%nat ->
    attempt + Z.of_nat fuel = max_retries ->
    (forall j, (j < k)%nat -> failed (outcome (calls h + j)%nat)) ->
    outcome (calls h + k)%nat = Ok r ->
    exists h',
      loop fuel attempt lastError h = (Ok r, h')
      /\ calls h' = (calls h + k + 1)%nat
      /\ delays h' = delays h ++ backoff_delays retry_delay attempt k
      /\ warnings h' = warnings h ++ length_warnings count (questions r).
Proof.
  induction k as [|k IH]; intros fuel attempt lastError h r Hk Hmax Hfail Hok.
  - destruct fuel as [|fuel]; [lia|].
    rewrite Nat.add_0_r in Hok.
    destruct (attempt_questions_run attempt h) as (extra & Hrun & Hc & Hd & Hw).
    rewrite Hok in Hrun, Hw.
    cbn [generateQuestions_loop]. unfold try_catch. rewrite Hrun.
    eexists. split; [reflexivity|].
    history_simpl. rewrite Hc, Hd, Hw. history_simpl. repeat split. lia.
  - destruct fuel as [|fuel]; [lia|].
    destruct (Hfail 0%nat ltac:(lia)) as [e He]. rewrite Nat.add_0_r in He.
    destruct (loop_failed_attempt fuel attempt lastError h e He)
      as (h1 & Hstep & Hc & Hd & Hw).
    assert (Hguard : (attempt <? max_retries - 1) = true) by (apply Z.ltb_lt; lia).
    rewrite Hguard in Hd.
    destruct (IH fuel (attempt + 1) (Some e) h1 r) as (h' & Hrun & Hc' & Hd' & Hw').
    + lia.
    + lia.
    + intros j Hj. rewrite Hc.
      replace (S (calls h) + j)%nat with (calls h + S j)%nat by lia.
      apply Hfail. lia.
    + rewrite Hc. now replace (S (calls h) + k)%nat with (calls h + S k)%nat by lia.
    + exists h'. rewrite Hstep, Hrun. split; [reflexivity|].
      rewrite Hc', Hd', Hw', Hc, Hd, Hw. simpl. rewrite <- app_assoc.
      repeat split. lia.
Qed.

(** When every attempt fails the loop runs out and the typed error carries
    the message of the failure of the last attempt. *)
Lemma loop_all_fail (fuel : nat) :
  forall (attempt : Z) (lastError : option Thrown) (h : History),
    attempt + Z.of_nat fuel = max_retries ->
    (forall j, (j < fuel)%nat -> failed (outcome (calls h + j)%nat)) ->
    exists h',
      loop fuel attempt lastError h
      = (Throw (ThrownAPIError
           {| message := ("Failed to generate questions after "
                          ++ string_of_Z max_retries ++ " attempts: "
                          ++ lastError_message
                               match fuel with
                               | O => lastError
                               | S f => thrown_of (outcome (calls h + f)%nat)
                               end)%string;
              code := Some "GENERATION_FAILED" |}), h')
      /\ calls h' = (calls h + fuel)%nat
      /\ delays h' = delays h ++ backoff_delays retry_delay attempt (Nat.pred fuel)
      /\ warnings h' = warnings h.
Proof.
  induction fuel as [|fuel IH]; intros attempt lastError h Hmax Hfail.
  - exists h. cbn [generateQuestions_loop]. unfold throw. simpl.
    rewrite app_nil_r. repeat split. lia.
  - destruct (Hfail 0%nat ltac:(lia)) as [e He]. rewrite Nat.add_0_r in He.
    destruct (loop_failed_attempt fuel attempt lastError h e He)
      as (h1 & Hstep & Hc & Hd & Hw).
    destruct (IH (attempt + 1) (Some e) h1) as (h' & Hrun & Hc' & Hd' & Hw').
    + lia.
    + intros j Hj. rewrite Hc.
      replace (S (calls h) + j)%nat with (calls h + S j)%nat by lia.
      apply Hfail. lia.
    + exists h'. rewrite Hstep, Hrun. split.
      * destruct fuel as [|fuel].
        -- rewrite Nat.add_0_r, He. reflexivity.
        -- rewrite Hc.
           now replace (S (calls h) + fuel)%nat with (calls h + S fuel)%nat by lia.
      * rewrite Hc', Hd', Hw', Hc, Hd, Hw. repeat split; [lia|].
        destruct fuel as [|fuel].
        -- assert (Hguard : (attempt <? max_retries - 1) = false)
             by (apply Z.ltb_ge; lia).
           rewrite Hguard. simpl. now rewrite !app_nil_r.
        -- assert (Hguard : (attempt <? max_retries - 1) = true)
             by (apply Z.ltb_lt; lia).
           rewrite Hguard. simpl. now rewrite <- app_assoc.
Qed.

End Pipeline.

Section Engine.

Variable SyntaxError_message : string -> string.
Variable TypeError_message : string -> string.

Local Abbreviation generateQuestions :=
  (generateQuestions SyntaxError_message TypeError_message).
Local Abbreviation response_outcome :=
  (response_outcome SyntaxError_message TypeError_message).
Local Abbreviation validateQuestion := (validateQuestion TypeError_message).

Lemma every_validateQuestion_Forall (qs : list JSON) :
  Forall (fun q => validateQuestion q = Ok true) qs ->
  every_validateQuestion TypeError_message qs = Ok true.
Proof.
  induction 1 as [|q qs Hq _ IH]; simpl; [reflexivity|].
  rewrite Hq. simpl. exact IH.
Qed.

Lemma every_validateQuestion_inv (qs : list JSON) :
  every_validateQuestion TypeError_message qs = Ok true ->
  Forall (fun q => validateQuestion q = Ok true) qs.
Proof.
  induction qs as [|q qs IH]; simpl; intros H; [constructor|].
  destruct (AiService.validateQuestion TypeError_message q) as [[|]|e] eqn:Hq;
    simpl in H; try discriminate.
  constructor; [assumption | now apply IH].
Qed.

(** The function is its loop, entered after the first console line. *)
Lemma generateQuestions_loop_entry (endpoint : Endpoint)
  (request : GenerateQuestionsRequest) (h : History) :
  generateQuestions endpoint request h
  = generateQuestions_loop SyntaxError_message TypeError_message endpoint
      (generateQuestionsPrompt (topic request) (count request)) (count request)
      (MAX_RETRIES QUIZ_CONFIG) (RETRY_DELAY QUIZ_CONFIG)
      (Z.to_nat (MAX_RETRIES QUIZ_CONFIG)) 0 None
      (h ++ [Console Log [Text "🤖 Generating questions with AI for topic:";
                          Text (topic request)]]).
Proof. reflexivity. Qed.

(** C5: when the answer to attempt number [k] (counted from 0, below the
    retry limit, all earlier attempts having failed) carries a
    [questions] array whose items all pass the validator,
    [generateQuestions] returns exactly that array after [k + 1] calls,
    whatever its length; a length other than [count] only adds the
    warning to the console, and no attempt follows. *)
Theorem generateQuestions_tolerates_length
  (endpoint : Endpoint) (request : GenerateQuestionsRequest)
  (k : nat) (text : string) (payload : JSON) (qs : list JSON) :
  let prompt := generateQuestionsPrompt (topic request) (count request) in
  (k < Z.to_nat (MAX_RETRIES QUIZ_CONFIG))%nat ->
  (forall j, (j < k)%nat -> failed (response_outcome (endpoint j prompt))) ->
  endpoint k prompt = Ok text ->
  extractJSON SyntaxError_message text = Ok payload ->
  read TypeError_message payload "questions" = Ok (Some (JArray qs)) ->
  Forall (fun q => validateQuestion q = Ok true) qs ->
  exists h,
    generateQuestions endpoint request [] = (Ok {| questions := qs |}, h)
    /\ calls h = (k + 1)%nat
    /\ delays h = backoff_delays (RETRY_DELAY QUIZ_CONFIG) 0 k
    /\ warnings h = length_warnings (count request) qs
    /\ (strict_equals (of_nat (length qs)) (count request) = false ->
        warnings h
        = [[Text ("⚠️ Expected " ++ Number_toString (count request)
                  ++ " questions but got "
                  ++ string_of_Z (Z.of_nat (length qs)))%string]]).
Proof.
  intros prompt Hk Hfail Hcall Hext Hread Hall.
  rewrite generateQuestions_loop_entry.
  assert (Hok : response_outcome (endpoint k prompt) = Ok {| questions := qs |}).
  { unfold AiService.response_outcome. rewrite Hcall. simpl.
    rewrite Hext. simpl. rewrite Hread. simpl.
    now rewrite (every_validateQuestion_Forall qs Hall). }
  destruct (loop_success_at SyntaxError_message TypeError_message endpoint
              prompt (count request) (MAX_RETRIES QUIZ_CONFIG)
              (RETRY_DELAY QUIZ_CONFIG) k
              (Z.to_nat (MAX_RETRIES QUIZ_CONFIG)) 0 None
              ([] ++ [Console Log [Text "🤖 Generating questions with AI for topic:";
                                   Text (topic request)]])
              {| questions := qs |})
    as (h & Hrun & Hc & Hd & Hw); try assumption.
  - reflexivity.
  - exists h. fold prompt. rewrite Hrun. split; [reflexivity|].
    split; [exact Hc|]. split; [exact Hd|]. split; [exact Hw|].
    intros Hne. rewrite Hw. simpl. unfold length_warnings. now rewrite Hne.
Qed.

(** C3: with the configured limit of 3 attempts and base delay 1000, an
    operation that fails twice and then succeeds is invoked three times,
    with a delay of 1000 after the first failure and of 2000 after the
    second, and the result of the third invocation is returned; this
    holds of [retryWithBackoff] and of the loop of [generateQuestions]. *)
Theorem retry_two_failures_then_success
  (T : Type) (outcomes : nat -> Result T) (v : T)
  (endpoint : Endpoint) (request : GenerateQuestionsRequest)
  (r : GenerateQuestionsResponse) :
  let prompt := generateQuestionsPrompt (topic request) (count request) in
  failed (outcomes 0%nat) ->
  failed (outcomes 1%nat) ->
  outcomes 2%nat = Ok v ->
  failed (response_outcome (endpoint 0%nat prompt)) ->
  failed (response_outcome (endpoint 1%nat prompt)) ->
  response_outcome (endpoint 2%nat prompt) = Ok r ->
  retryWithBackoff (operation outcomes)
    (MAX_RETRIES QUIZ_CONFIG) (RETRY_DELAY QUIZ_CONFIG) []
  = (Ok v, [Invoke; Delay (1000 * 2 ^ 0); Invoke; Delay (1000 * 2 ^ 1); Invoke])
  /\ exists h,
       generateQuestions endpoint request [] = (Ok r, h)
       /\ calls h = 3%nat
       /\ delays h = [1000; 2000].
Proof.
  intros prompt [e0 H0] [e1 H1] H2 G0 G1 G2. split.
  - unfold retryWithBackoff. change (Z.to_nat (MAX_RETRIES QUIZ_CONFIG)) with 3%nat.
    cbn [retry_loop]. unfold try_catch, operation, bind, delay, emit, ret.
    unfold invocations. simpl. rewrite H0, H1.
    rewrite H2. reflexivity.
  - rewrite generateQuestions_loop_entry.
    destruct (loop_success_at SyntaxError_message TypeError_message endpoint
                prompt (count request) (MAX_RETRIES QUIZ_CONFIG)
                (RETRY_DELAY QUIZ_CONFIG) 2
                (Z.to_nat (MAX_RETRIES QUIZ_CONFIG)) 0 None
                ([] ++ [Console Log [Text "🤖 Generating questions with AI for topic:";
                                     Text (topic request)]])
                r)
      as (h & Hrun & Hc & Hd & _).
    + simpl. lia.
    + reflexivity.
    + intros [|[|j]] Hj; [exact G0 | exact G1 | lia].
    + exact G2.
    + exists h. fold prompt. rewrite Hrun. now repeat split.
Qed.


End Engine.

(** The loop of [retryWithBackoff] returns only what an invocation of the
    operation returned. *)
Lemma retry_loop_returns {T} (fn : M T) (maxRetries baseDelay : Z) (fuel : nat) :
  forall (attempt : Z) (lastError : option Thrown) (h h' : History) (v : T),
    retry_loop fn maxRetries baseDelay fuel attempt lastError h = (Ok v, h') ->
    exists h1, fn h1 = (Ok v, h').
Proof.
  induction fuel as [|fuel IH]; intros attempt lastError h h' v H.
  - discriminate.
  - cbn [retry_loop] in H. unfold try_catch in H.
    destruct (fn h) as [[v1|e] h1] eqn:Hfn.
    + exists h. now rewrite Hfn.
    + unfold bind at 1 in H.
      destruct (attempt <? maxRetries - 1).
      * unfold delay, emit in H. now apply IH in H.
      * unfold ret in H. now apply IH in H.
Qed.

(** C10: with a retry limit of zero or less, [retryWithBackoff] leaves the
    history as it is, so the operation is not invoked, and throws
    [undefined]; and whenever it returns a value, some invocation of the
    operation returned that value. *)
Theorem retryWithBackoff_without_attempts
  (T : Type) (fn : M T) (maxRetries baseDelay : Z) (h : History) :
  (maxRetries <= 0 ->
   retryWithBackoff fn maxRetries baseDelay h = (Throw ThrownUndefined, h))
  /\ (forall v h',
        retryWithBackoff fn maxRetries baseDelay h = (Ok v, h') ->
        0 < maxRetries /\ exists h1, fn h1 = (Ok v, h')).
Proof.
  split.
  - intros Hle. unfold retryWithBackoff.
    replace (Z.to_nat maxRetries) with 0%nat by lia. reflexivity.
  - intros v h' H. split.
    + destruct (Z.ltb_spec 0 maxRetries) as [Hlt|Hge]; [assumption|].
      unfold retryWithBackoff in H.
      replace (Z.to_nat maxRetries) with 0%nat in H by lia. discriminate.
    + now apply retry_loop_returns in H.
Qed.

Lemma retry_two_failures_then_success_witness :
  retryWithBackoff (operation Samples.flaky_operation) 3 1000 []
  = (Ok "done"%string, [Invoke; Delay 1000; Invoke; Delay 2000; Invoke])
  /\ exists h,
       generateQuestions Samples.SyntaxError_text Samples.TypeError_text
         Samples.flaky_endpoint Samples.science_request []
       = (Ok {| questions := Samples.one_question |}, h)
       /\ calls h = 3%nat
       /\ delays h = [1000; 2000].
Proof.
  apply (retry_two_failures_then_success
           Samples.SyntaxError_text Samples.TypeError_text
           string Samples.flaky_operation "done"%string
           Samples.flaky_endpoint Samples.science_request
           {| questions := Samples.one_question |});
    try (eexists; reflexivity); reflexivity.
Defined.


Lemma generateQuestions_tolerates_length_witness :
  exists h,
    generateQuestions Samples.SyntaxError_text Samples.TypeError_text
      Samples.flaky_endpoint Samples.science_request []
    = (Ok {| questions := Samples.one_question |}, h)
    /\ calls h = 3%nat
    /\ delays h = [1000; 2000]
    /\ warnings h = [[Text "⚠️ Expected 5 questions but got 1"]].
Proof.
  destruct (generateQuestions_tolerates_length
              Samples.SyntaxError_text Samples.TypeError_text
              Samples.flaky_endpoint Samples.science_request 2
              Samples.one_question_response
              (JObject [("questions"%string, JArray Samples.one_question)])
              Samples.one_question)
    as (h & Hrun & Hc & Hd & _ & Hw).
  - simpl. lia.
  - intros [|[|j]] Hj; [eexists; reflexivity | eexists; reflexivity | lia].
  - reflexivity.
  - reflexivity.
  - reflexivity.
  - repeat constructor.
  - exists h. split; [exact Hrun|]. split; [exact Hc|]. split; [exact Hd|].
    exact (Hw eq_refl).
Defined.

Lemma retryWithBackoff_without_attempts_witness :
  retryWithBackoff (operation Samples.flaky_operation) 0 1000 []
  = (Throw ThrownUndefined, []).
Proof.
  apply (proj1 (retryWithBackoff_without_attempts
                  string (operation Samples.flaky_operation) 0 1000 [])).
  lia.
Defined.

End RetryFacts.

(** ** Feedback *)

Module FeedbackFacts.

Import JsNumber Json AiService.

Local Open Scope list_scope.

Section Engine.

Variable SyntaxError_message : string -> string.
Variable TypeError_message : string -> string.

Local Abbreviation generateFeedback :=
  (generateFeedback SyntaxError_message TypeError_message).

(** C6: [generateFeedback] calls the endpoint exactly once and never
    waits; a failure of the call, of the extraction, or of the check of
    the [message] field is thrown to the caller as it is; otherwise the
    string under [message] is returned. *)
Theorem generateFeedback_single_call
  (endpoint : Endpoint) (request : GenerateFeedbackRequest) :
  let prompt := generateFeedbackPrompt (fb_topic request) (score request)
                  (correctAnswers request) (totalQuestions request) in
  exists res h,
    generateFeedback endpoint request [] = (res, h)
    /\ calls h = 1%nat
    /\ List.filter is_call h = [Call prompt]
    /\ delays h = []
    /\ (forall e, endpoint 0%nat prompt = Throw e -> res = Throw e)
    /\ (forall text e,
          endpoint 0%nat prompt = Ok text ->
          extractJSON SyntaxError_message text = Throw e ->
          res = Throw e)
    /\ (forall text payload e,
          endpoint 0%nat prompt = Ok text ->
          extractJSON SyntaxError_message text = Ok payload ->
          read TypeError_message payload "message" = Throw e ->
          res = Throw e)
    /\ (forall text payload field,
          endpoint 0%nat prompt = Ok text ->
          extractJSON SyntaxError_message text = Ok payload ->
          read TypeError_message payload "message" = Ok field ->
          truthy field && is_string field = false ->
          res = Throw (ThrownError Error "Invalid feedback format from AI"))
    /\ (forall text payload m,
          endpoint 0%nat prompt = Ok text ->
          extractJSON SyntaxError_message text = Ok payload ->
          read TypeError_message payload "message" = Ok (Some (JString m)) ->
          m <> EmptyString ->
          res = Ok {| fb_message := m |}).
Proof.
  intros prompt.
  unfold AiService.generateFeedback. fold prompt.
  unfold bind, try_catch, console_log, console_error, emit, callGeminiAPI,
    lift, throw, ret.
  cbn [calls List.filter is_call length app].
  destruct (endpoint 0%nat prompt) as [text|e0] eqn:Hcall.
  2:{ do 2 eexists. split; [reflexivity|].
      repeat split; try discriminate. now intros e [= ->]. }
  destruct (extractJSON SyntaxError_message text) as [payload|e1] eqn:Hext.
  2:{ do 2 eexists. split; [reflexivity|].
      repeat split; try discriminate.
      - intros t e [= <-] He. rewrite Hext in He. now injection He as ->.
      - intros t p e [= <-] He. now rewrite Hext in He.
      - intros t p f [= <-] He. now rewrite Hext in He.
      - intros t p m [= <-] He. now rewrite Hext in He. }
  destruct (read TypeError_message payload "message") as [field|e2] eqn:Hread.
  2:{ do 2 eexists. split; [reflexivity|].
      repeat split; try discriminate.
      - intros t e [= <-] He. now rewrite Hext in He.
      - intros t p e [= <-] He Hr. rewrite Hext in He. injection He as <-.
        rewrite Hread in Hr. now injection Hr as ->.
      - intros t p f [= <-] He Hr. rewrite Hext in He. injection He as <-.
        now rewrite Hread in Hr.
      - intros t p m [= <-] He Hr. rewrite Hext in He. injection He as <-.
        now rewrite Hread in Hr. }
  assert (Hbad : truthy field && is_string field = false ->
    exists res h,
      (@Throw GenerateFeedbackResponse
         (ThrownError Error "Invalid feedback format from AI"),
       ((([] ++ [Console Log [Text "🤖 Generating feedback with AI..."]])
           ++ [Console Log [Text "🔄 Calling Gemini API for feedback..."]])
          ++ [Call prompt])
         ++ [Console Err [Text "❌ Failed to generate feedback:";
                          Value (ThrownError Error "Invalid feedback format from AI")]])
      = (res, h)
      /\ calls h = 1%nat
      /\ List.filter is_call h = [Call prompt]
      /\ delays h = []
      /\ (forall e, @Ok string text = Throw e -> res = Throw e)
      /\ (forall text0 e, Ok text = Ok text0 ->
            extractJSON SyntaxError_message text0 = Throw e -> res = Throw e)
      /\ (forall text0 payload0 e, Ok text = Ok text0 ->
            extractJSON SyntaxError_message text0 = Ok payload0 ->
            read TypeError_message payload0 "message" = Throw e -> res = Throw e)
      /\ (forall text0 payload0 field0, Ok text = Ok text0 ->
            extractJSON SyntaxError_message text0 = Ok payload0 ->
            read TypeError_message payload0 "message" = Ok field0 ->
            truthy field0 && is_string field0 = false ->
            res = Throw (ThrownError Error "Invalid feedback format from AI"))
      /\ (forall text0 payload0 m, Ok text = Ok text0 ->
            extractJSON SyntaxError_message text0 = Ok payload0 ->
            read TypeError_message payload0 "message" = Ok (Some (JString m)) ->
            m <> EmptyString ->
            res = Ok {| fb_message := m |})).
  { intros Hf. do 2 eexists. split; [reflexivity|].
    repeat split; try discriminate.
    - intros t e [= <-] He. now rewrite Hext in He.
    - intros t p e [= <-] He Hr. rewrite Hext in He. injection He as <-.
      now rewrite Hread in Hr.
    - intros t p m [= <-] He Hr Hm. rewrite Hext in He. injection He as <-.
      rewrite Hread in Hr. injection Hr as ->. simpl in Hf.
      rewrite andb_true_r in Hf. apply negb_false_iff, String.eqb_eq in Hf.
      contradiction. }
  destruct field as [[| | |m| |]|]; try (apply Hbad; reflexivity);
    try (apply Hbad; simpl; apply andb_false_r).
  destruct (truthy (Some (JString m))) eqn:Ht; cbn [negb].
  2:{ apply Hbad. reflexivity. }
  clear Hbad. do 2 eexists. split; [reflexivity|].
  repeat split; try discriminate.
  - intros t e [= <-] He. now rewrite Hext in He.
  - intros t p e [= <-] He Hr. rewrite Hext in He. injection He as <-.
    now rewrite Hread in Hr.
  - intros t p f [= <-] He Hr Hf. rewrite Hext in He. injection He as <-.
    rewrite Hread in Hr. injection Hr as <-. rewrite Ht in Hf. discriminate.
  - intros t p m' [= <-] He Hr _. rewrite Hext in He. injection He as <-.
    rewrite Hread in Hr. now injection Hr as ->.
Qed.

End Engine.

Lemma generateFeedback_single_call_witness :
  exists h,
    generateFeedback Samples.SyntaxError_text Samples.TypeError_text
      Samples.feedback_endpoint Samples.feedback_request []
    = (Ok {| fb_message := "Well done, keep going." |}, h)
    /\ calls h = 1%nat.
Proof.
  destruct (generateFeedback_single_call
              Samples.SyntaxError_text Samples.TypeError_text
              Samples.feedback_endpoint Samples.feedback_request)
    as (res & h & Hrun & Hc & _ & _ & _ & _ & _ & _ & Hok).
  exists h. split; [|exact Hc].
  rewrite Hrun. f_equal.
  apply (Hok (dq "Of course! {'message':'Well done, keep going.'}")
             (JObject [("message"%string, JString "Well done, keep going.")])
             "Well done, keep going."%string);
    [reflexivity | reflexivity | reflexivity | discriminate].
Defined.

End FeedbackFacts.

(** ** The feedback prompt *)

Module PromptFacts.

Import JsNumber Json AiService.



End PromptFacts.

(** ** The quiz state *)

Module QuizFacts.

Import JsNumber QuizContext.

Local Open Scope list_scope.


(** At 23 correct answers out of 40 the product is just below 57.5 and
    the score is 57, where the exact percentage rounds to 58. *)
Example score_23_of_40 :
  to_Z (compute_score 23 40) = Some 57 /\ exact_percent 23 40 = 58.
Proof. split; reflexivity. Qed.

(** Without questions the score is not a number. *)
Example score_without_questions : compute_score 0 0 = NaN.
Proof. reflexivity. Qed.



(** *** Recording answers *)

Section Recording.

Variables (qid : string) (sel : number) (ic : bool).

Local Abbreviation answer :=
  {| questionId := qid; selectedOption := sel; isCorrect := ic |}.


Lemma record_answer_new (l : list UserAnswer) :
  qid ∉ answer_ids l ->
  record_answer qid sel ic l = l ++ [answer].
Proof.
  intros Hnew. unfold record_answer.
  destruct (list_find _ l) as [[i a]|] eqn:Hfind; [|reflexivity].
  apply list_find_Some in Hfind as (Hi & Ha & _).
  exfalso. apply Hnew. unfold answer_ids.
  apply list_elem_of_fmap. exists a. split; [now symmetry|].
  now apply list_elem_of_lookup_2 in Hi.
Qed.




End Recording.





End QuizFacts.

(** * Further properties *)

(** ** What the extraction returns *)

Module ObjectFacts.

Import JsNumber Json AiService PipelineNotions.

Local Open Scope list_scope.

Lemma lex_idle_tokens (c : ascii) (acc : list token) :
  snd (lex_idle c acc) = acc \/ exists t, snd (lex_idle c acc) = t :: acc.
Proof.
  unfold lex_idle. destruct (is_whitespace c); [now left|].
  destruct (punctuation c) as [t|]; [right; now exists t|].
  destruct (char_code c =? 34); now left.
Qed.

(** The lexer only adds tokens after those it has produced. *)
Lemma lex_keeps_tokens (s : list ascii) :
  forall mode acc ts,
    lex s mode acc = Some ts -> exists ts', ts = rev acc ++ ts'.
Proof.
  induction s as [|c s IH]; intros mode acc ts H; simpl in H.
  - destruct mode as [|w|esc body].
    + injection H as <-. exists []. now rewrite app_nil_r.
    + destruct (read_word (rev w)) as [t|]; [|discriminate].
      injection H as <-. exists [t]. reflexivity.
    + discriminate.
  - assert (Hidle : forall acc0 ts0,
              (let '(mode', toks') := lex_idle c acc0 in lex s mode' toks') = Some ts0 ->
              exists ts', ts0 = rev acc0 ++ ts').
    { intros acc0 ts0 H0. pose proof (lex_idle_tokens c acc0) as Ht.
      destruct (lex_idle c acc0) as [mode' toks']. simpl in Ht.
      apply IH in H0 as [ts' ->].
      destruct Ht as [->|[t ->]]; [now exists ts'|].
      exists (t :: ts'). simpl. now rewrite <- app_assoc. }
    destruct mode as [|w|[|] body].
    + now apply Hidle.
    + destruct (is_whitespace c || (char_code c =? 34)
                || match punctuation c with Some _ => true | None => false end).
      * destruct (read_word (rev w)) as [t|]; [|discriminate].
        apply Hidle in H as [ts' ->]. exists (t :: ts'). simpl.
        now rewrite <- app_assoc.
      * now apply IH in H.
    + now apply IH in H.
    + destruct (char_code c =? 34).
      * destruct (decode_string (rev body)) as [str|]; [|discriminate].
        apply IH in H as [ts' ->]. exists (TString str :: ts'). simpl.
        now rewrite <- app_assoc.
      * now apply IH in H.
Qed.

Lemma bottom_cons (x b : frame) (st inner : list frame) :
  x :: st = inner ++ [b] ->
  (inner = [] /\ st = [] /\ x = b) \/ exists inner', inner = x :: inner' /\ st = inner' ++ [b].
Proof.
  destruct inner as [|y inner]; simpl; intros H; injection H as -> ->.
  - now left.
  - right. now exists inner.
Qed.

Lemma complete_bottom (v : JSON) (stack : list frame) (st' : pstate) :
  (exists inner fields key, stack = inner ++ [FObject fields key]) ->
  complete v stack = Some st' ->
  object_at_bottom st'.
Proof.
  intros (inner & fields & key & Hst) H.
  destruct stack as [|fr st]; [now destruct inner|].
  apply bottom_cons in Hst as [(-> & -> & ->)|(inner' & -> & ->)].
  - simpl in H. destruct key as [k|]; [|discriminate].
    injection H as <-. simpl. now exists [], (obj_set fields k v), None.
  - destruct fr as [items|fields' [k|]]; simpl in H; try discriminate;
      injection H as <-; simpl.
    + now exists (FArray (v :: items) :: inner'), fields, key.
    + now exists (FObject (obj_set fields' k v) None :: inner'), fields, key.
Qed.

Lemma pstep_object_at_bottom (st st' : pstate) (t : token) :
  object_at_bottom st -> pstep st t = Some st' -> object_at_bottom st'.
Proof.
  destruct st as [e stack]. intros Hb H.
  assert (Hstart : (exists inner fields key, stack = inner ++ [FObject fields key]) ->
                   start_value t stack = Some st' -> object_at_bottom st').
  { intros Hs Hv. destruct t; simpl in Hv; try discriminate.
    - injection Hv as <-. destruct Hs as (inner & f & k & ->).
      now exists (FObject [] None :: inner), f, k.
    - injection Hv as <-. destruct Hs as (inner & f & k & ->).
      now exists (FArray [] :: inner), f, k.
    - now apply (complete_bottom _ _ _ Hs) in Hv.
    - now apply (complete_bottom _ _ _ Hs) in Hv. }
  assert (Harr : (exists inner fields key, stack = inner ++ [FObject fields key]) ->
                 close_array stack = Some st' -> object_at_bottom st').
  { intros (inner & f & k & Hs) Hv. unfold close_array in Hv.
    destruct stack as [|[items|] st]; try discriminate.
    apply bottom_cons in Hs as [(_ & _ & Hx)|(inner' & -> & ->)]; [discriminate|].
    apply (complete_bottom _ _ _ (ex_intro _ inner' (ex_intro _ f (ex_intro _ k eq_refl)))) in Hv.
    exact Hv. }
  assert (Hobj : (exists inner fields key, stack = inner ++ [FObject fields key]) ->
                 close_object stack = Some st' -> object_at_bottom st').
  { intros (inner & f & k & Hs) Hv. unfold close_object in Hv.
    destruct stack as [|[|fields [|]] st]; try discriminate.
    apply bottom_cons in Hs as [(_ & -> & _)|(inner' & -> & ->)].
    - simpl in Hv. injection Hv as <-. simpl. now exists fields.
    - apply (complete_bottom _ _ _ (ex_intro _ inner' (ex_intro _ f (ex_intro _ k eq_refl)))) in Hv.
      exact Hv. }
  assert (Hkey : (exists inner fields key, stack = inner ++ [FObject fields key]) ->
                 read_key t stack = Some st' -> object_at_bottom st').
  { intros (inner & f & k & Hs) Hv. unfold read_key in Hv.
    destruct t; try discriminate.
    destruct stack as [|[|fields [|]] st]; try discriminate.
    injection Hv as <-.
    apply bottom_cons in Hs as [(_ & -> & _)|(inner' & -> & ->)]; simpl.
    - now exists [], fields, (Some s).
    - now exists (FObject fields (Some s) :: inner'), f, k. }
  destruct e; simpl in Hb, H.
  - now apply Hstart.
  - destruct t; try (now apply Hstart). now apply Harr.
  - destruct t; try (now apply Hkey). now apply Hobj.
  - now apply Hkey.
  - destruct t; try discriminate. now injection H as <-.
  - destruct t; try discriminate.
    + now apply Hobj.
    + now apply Harr.
    + destruct stack as [|[|fields [|]] st]; try discriminate;
        now injection H as <-.
  - discriminate.
Qed.

Lemma prun_object_at_bottom (ts : list token) :
  forall st st',
    object_at_bottom st -> prun st ts = Some st' -> object_at_bottom st'.
Proof.
  induction ts as [|t ts IH]; intros st st' Hb H; simpl in H.
  - now injection H as <-.
  - destruct (pstep st t) as [st1|] eqn:Hstep; [|discriminate].
    apply (IH st1); [|exact H]. now apply (pstep_object_at_bottom st st1 t).
Qed.

(** A text that starts with an opening brace parses to an object or not
    at all. *)
Lemma JSON_parse_brace (rest : string) (v : JSON) :
  JSON_parse (String (char 123) rest) = Some v -> exists fields, v = JObject fields.
Proof.
  unfold JSON_parse. intros H.
  change (lex (list_ascii_of_string (String (char 123) rest)) LIdle [])
    with (lex (list_ascii_of_string rest) LIdle [TLBrace]) in H.
  destruct (lex _ LIdle [TLBrace]) as [ts|] eqn:Hlex; [|discriminate].
  apply lex_keeps_tokens in Hlex as [ts' ->]. simpl in H.
  destruct (prun _ ts') as [[e stack]|] eqn:Hrun; [|discriminate].
  destruct e; try discriminate. injection H as <-.
  apply (prun_object_at_bottom ts' _ _) in Hrun; [exact Hrun|].
  simpl. now exists [], [], None.
Qed.

Section Engine.

Variable SyntaxError_message : string -> string.
Variable TypeError_message : string -> string.

(** X1: whatever [extractJSON] returns is an object, so that reading a
    member of the result never throws, and a top-level array, string or
    number in the answer is never accepted. *)
Theorem extractJSON_returns_object (text : string) (v : JSON) :
  extractJSON SyntaxError_message text = Ok v ->
  (exists fields, v = JObject fields)
  /\ (forall key, exists field, read TypeError_message v key = Ok field).
Proof.
  unfold extractJSON, match_braces, parse. intros H.
  destruct (after_first_open text) as [rest|]; [|discriminate].
  destruct (upto_last_close rest) as [p|]; [|discriminate].
  simpl in H.
  destruct (JSON_parse (String (char 123) p)) as [v'|] eqn:Hp; [|discriminate].
  injection H as <-.
  apply JSON_parse_brace in Hp as [fields ->].
  split; [now exists fields|].
  intros key. now eexists.
Qed.

End Engine.

Lemma extractJSON_returns_object_witness :
  exists fields, JObject [("message"%string, JString "hi")] = JObject fields.
Proof.
  apply (extractJSON_returns_object Samples.SyntaxError_text Samples.TypeError_text
           Samples.wrapped_message).
  reflexivity.
Defined.

End ObjectFacts.

(** ** The retry utility in general *)

Module BackoffFacts.

Import JsNumber Json AiService PipelineNotions.

Local Open Scope list_scope.


Section Operation.

Context {T : Type}.
Variable outcomes : nat -> Result T.
Variable maxRetries baseDelay : Z.

Local Abbreviation loop := (retry_loop (operation outcomes) maxRetries baseDelay).






End Operation.



End BackoffFacts.

(** ** The validator as a type guard *)

Module GuardFacts.

Import JsNumber Json AiService PipelineNotions QuestionView.

Local Open Scope list_scope.

Lemma strings_of_all_strings (opts : list JSON) :
  Forall (fun opt => exists s, opt = JString s) opts ->
  exists os, strings_of opts = Some os /\ length os = length opts.
Proof.
  induction 1 as [|opt opts [s ->] _ (os & IH & Hlen)]; simpl.
  - now exists [].
  - rewrite IH. simpl. exists (s :: os). split; [reflexivity|]. simpl. now rewrite Hlen.
Qed.

Section Validation.

Variable TypeError_message : string -> string.

Local Abbreviation validateQuestion := (validateQuestion TypeError_message).

(** A value the validator accepts reads as a [Question]. *)
Lemma validateQuestion_as_Question (q : JSON) :
  validateQuestion q = Ok true ->
  exists r,
    as_Question q = Some r
    /\ length (QuizContext.options r) = 4%nat
    /\ ge (QuizContext.correctAnswer r) (of_Z 0) = true
    /\ le (QuizContext.correctAnswer r) (of_Z 3) = true.
Proof.
  intros H.
  destruct q as [| | | | |fields]; try discriminate.
  apply ValidationFacts.validateQuestion_accepts_iff in H
    as ((i & Hi) & (t & Ht) & (opts & Ho & Hlen & Hall) & (n & Hn & Hge & Hle)).
  destruct (strings_of_all_strings opts Hall) as (os & Hos & Hlen').
  unfold as_Question. rewrite Hi, Ht, Ho, Hn, Hos.
  eexists. split; [reflexivity|].
  cbn [QuizContext.options QuizContext.correctAnswer].
  split; [now rewrite Hlen'|]. now split.
Qed.

(** The accepted items of a list all reach the quiz state, in order. *)
Lemma as_Questions_valid (qs : list JSON) :
  Forall (fun q => validateQuestion q = Ok true) qs ->
  Forall2 (fun q r => as_Question q = Some r
                      /\ length (QuizContext.options r) = 4%nat
                      /\ ge (QuizContext.correctAnswer r) (of_Z 0) = true
                      /\ le (QuizContext.correctAnswer r) (of_Z 3) = true)
          qs (as_Questions qs).
Proof.
  unfold as_Questions.
  induction 1 as [|q qs Hq _ IH]; cbn [omap list_omap]; [constructor|].
  destruct (validateQuestion_as_Question q Hq) as (r & Hr & Hshape).
  rewrite Hr. constructor; [now split | exact IH].
Qed.

(** X4: the validator is sound as a type guard: when every item of a list is
    accepted, every item reads as a [Question], none is lost on the way
    into the quiz state, and each has exactly four options and a
    [correctAnswer] that is a number from 0 to 3. *)
Theorem validateQuestion_sound (qs : list JSON) :
  Forall (fun q => validateQuestion q = Ok true) qs ->
  length (as_Questions qs) = length qs
  /\ Forall (fun r => length (QuizContext.options r) = 4%nat
                      /\ ge (QuizContext.correctAnswer r) (of_Z 0) = true
                      /\ le (QuizContext.correctAnswer r) (of_Z 3) = true)
            (as_Questions qs)
  /\ Forall2 (fun q r => as_Question q = Some r) qs (as_Questions qs).
Proof.
  intros H. apply as_Questions_valid in H.
  induction H as [|q r qs rs (Hr & Hshape) _ (IHlen & IHall & IH2)].
  - repeat split; constructor.
  - split; [cbn; now rewrite IHlen|].
    split; constructor; assumption.
Qed.

(** X5: the validator throws on [null], where it reads [id] of nothing, and
    on no other value; on a value that is not an object it answers
    false. *)
Theorem validateQuestion_throws_only_on_null (q : JSON) :
  (q = JNull ->
   validateQuestion q = Throw (ThrownError TypeError (TypeError_message "id")))
  /\ (q <> JNull -> exists b, validateQuestion q = Ok b)
  /\ ((forall fields, q <> JObject fields) -> q <> JNull ->
      validateQuestion q = Ok false).
Proof.
  split; [now intros ->|]. split.
  - intros Hq. destruct q as [| | | | |fields].
    + congruence.
    + now exists false.
    + now exists false.
    + now exists false.
    + now exists false.
    + rewrite ValidationFacts.validateQuestion_object. now eexists.
  - intros Hobj Hq. destruct q as [| | | | |fields]; try reflexivity.
    + congruence.
    + now destruct (Hobj fields).
Qed.

(** One [null] among the questions makes [every] throw as soon as it is
    reached, provided the items before it are valid. *)
Lemma every_validateQuestion_null (before after : list JSON) :
  Forall (fun q => validateQuestion q = Ok true) before ->
  every_validateQuestion TypeError_message (before ++ JNull :: after)
  = Throw (ThrownError TypeError (TypeError_message "id")).
Proof.
  induction 1 as [|q before Hq _ IH]; simpl; [reflexivity|].
  rewrite Hq. simpl. exact IH.
Qed.

End Validation.

Lemma validateQuestion_sound_witness :
  length (as_Questions Samples.one_question) = 1%nat.
Proof.
  apply (validateQuestion_sound Samples.TypeError_text Samples.one_question).
  repeat constructor.
Defined.

Lemma validateQuestion_throws_only_on_null_witness :
  validateQuestion Samples.TypeError_text JNull
  = Throw (ThrownError TypeError (Samples.TypeError_text "id")).
Proof.
  now apply (proj1 (validateQuestion_throws_only_on_null Samples.TypeError_text JNull)).
Defined.

End GuardFacts.

(** ** Every run of generateQuestions *)

Module GenerationFacts.

Import JsNumber Json AiService PipelineNotions.

Local Open Scope list_scope.

Lemma call_prompts_app (h h' : History) :
  call_prompts (h ++ h') = call_prompts h ++ call_prompts h'.
Proof.
  induction h as [|[] h IH]; simpl; try assumption; [reflexivity|].
  now rewrite IH.
Qed.

Lemma calls_call_prompts (h : History) : calls h = length (call_prompts h).
Proof.
  unfold calls. induction h as [|[] h IH]; simpl; try assumption; [reflexivity|].
  now rewrite IH.
Qed.

Ltac prompts_simpl :=
  cbn [snd negb]; rewrite ?call_prompts_app; cbn [call_prompts app];
  rewrite ?app_nil_r; reflexivity.

Section Pipeline.

Variable SyntaxError_message : string -> string.
Variable TypeError_message : string -> string.
Variable endpoint : Endpoint.
Variable prompt : string.
Variable count : number.

Local Abbreviation outcome n :=
  (response_outcome SyntaxError_message TypeError_message (endpoint n prompt)).

(** A successful attempt returns validated questions only. *)
Lemma response_outcome_valid (response : Result string) (r : GenerateQuestionsResponse) :
  response_outcome SyntaxError_message TypeError_message response = Ok r ->
  Forall (fun q => validateQuestion TypeError_message q = Ok true) (questions r).
Proof.
  unfold response_outcome, rbind. intros H.
  destruct response as [text|]; [|discriminate].
  destruct (extractJSON SyntaxError_message text) as [result|]; [|discriminate].
  destruct (read TypeError_message result "questions") as [[[| | | |qs|]|]|];
    try discriminate.
  destruct (every_validateQuestion TypeError_message qs) as [[|]|] eqn:Hall;
    try discriminate.
  simpl in H. injection H as <-. simpl.
  now apply RetryFacts.every_validateQuestion_inv.
Qed.

(** The one call of an attempt carries the prompt. *)
Lemma attempt_questions_prompt (attempt : Z) (h : History) :
  call_prompts
    (snd (attempt_questions SyntaxError_message TypeError_message
            endpoint prompt count attempt h))
  = call_prompts h ++ [prompt].
Proof.
  unfold attempt_questions, bind, console_log, emit, callGeminiAPI, lift.
  destruct (endpoint _ prompt) as [text|e]; [|prompts_simpl].
  destruct (extractJSON SyntaxError_message text) as [result|e]; [|prompts_simpl].
  destruct (read TypeError_message result "questions") as [field|e]; [|prompts_simpl].
  destruct field as [[| | | |qs|]|]; try (unfold throw; prompts_simpl).
  destruct (every_validateQuestion TypeError_message qs) as [[|]|e];
    try (unfold throw; prompts_simpl).
  unfold console_warn, emit, ret.
  destruct (negb (strict_equals (of_nat (length qs)) count)); prompts_simpl.
Qed.

Variable max_retries retry_delay : Z.

Local Abbreviation loop :=
  (generateQuestions_loop SyntaxError_message TypeError_message
     endpoint prompt count max_retries retry_delay).

(** Every call of the loop carries the same prompt. *)
Lemma loop_prompts (fuel : nat) :
  forall (attempt : Z) (lastError : option Thrown) (h : History),
    exists n,
      call_prompts (snd (loop fuel attempt lastError h))
      = call_prompts h ++ repeat prompt n.
Proof.
  induction fuel as [|fuel IH]; intros attempt lastError h.
  - exists 0%nat. simpl. now rewrite app_nil_r.
  - pose proof (attempt_questions_prompt attempt h) as Hp.
    cbn [generateQuestions_loop]. unfold try_catch at 1.
    destruct (attempt_questions _ _ _ _ _ _ h) as [[r|e] h1]; simpl in Hp.
    + exists 1%nat. simpl. exact Hp.
    + unfold bind at 1. unfold console_error at 1, emit at 1. unfold bind at 1.
      destruct (attempt <? max_retries - 1).
      * unfold bind at 1. unfold console_log at 1, emit at 1.
        unfold delay at 1, emit at 1.
        destruct (IH (attempt + 1) (Some e)
                    (((h1 ++ [Console Err
                                [Text ("❌ Attempt " ++ string_of_Z (attempt + 1)
                                       ++ " failed:")%string; Value e]])
                        ++ [Console Log
                              [Text ("⏳ Retrying in "
                                     ++ string_of_Z (retry_delay * 2 ^ attempt)
                                     ++ "ms...")%string]])
                       ++ [Delay (retry_delay * 2 ^ attempt)]))
          as [n Hn].
        exists (S n). rewrite Hn, !call_prompts_app, Hp. simpl.
        now rewrite !app_nil_r, <- app_assoc.
      * unfold ret at 1.
        destruct (IH (attempt + 1) (Some e)
                    (h1 ++ [Console Err
                              [Text ("❌ Attempt " ++ string_of_Z (attempt + 1)
                                     ++ " failed:")%string; Value e]]))
          as [n Hn].
        exists (S n). rewrite Hn, !call_prompts_app, Hp. simpl.
        now rewrite !app_nil_r, <- app_assoc.
Qed.

End Pipeline.

Section Engine.

Variable SyntaxError_message : string -> string.
Variable TypeError_message : string -> string.

Local Abbreviation generateQuestions :=
  (generateQuestions SyntaxError_message TypeError_message).
Local Abbreviation response_outcome :=
  (response_outcome SyntaxError_message TypeError_message).
Local Abbreviation validateQuestion := (validateQuestion TypeError_message).

(** The runs of [generateQuestions], by the first attempt that succeeds,
    if any. *)
Lemma generateQuestions_cases
  (endpoint : Endpoint) (request : GenerateQuestionsRequest) :
  let prompt := generateQuestionsPrompt (topic request) (count request) in
  exists res h,
    generateQuestions endpoint request [] = (res, h)
    /\ (1 <= calls h <= 3)%nat
    /\ delays h = backoff_delays (RETRY_DELAY QUIZ_CONFIG) 0 (Nat.pred (calls h))
    /\ ((exists r,
           res = Ok r
           /\ response_outcome (endpoint (Nat.pred (calls h)) prompt) = Ok r)
        \/ (exists e,
              res = Throw (ThrownAPIError
                      {| message := ("Failed to generate questions after 3 attempts: "
                                     ++ lastError_message (Some e))%string;
                         code := Some "GENERATION_FAILED"%string |})
              /\ response_outcome (endpoint 2%nat prompt) = Throw e
              /\ calls h = 3%nat)).
Proof.
  intros prompt. rewrite RetryFacts.generateQuestions_loop_entry. fold prompt.
  set (h0 := [] ++ [Console Log [Text "🤖 Generating questions with AI for topic:";
                                  Text (topic request)]]).
  assert (Hsucc : forall k r,
            (k < 3)%nat ->
            (forall j, (j < k)%nat -> failed (response_outcome (endpoint j prompt))) ->
            response_outcome (endpoint k prompt) = Ok r ->
            exists res h,
              generateQuestions_loop SyntaxError_message TypeError_message endpoint
                prompt (count request) (MAX_RETRIES QUIZ_CONFIG)
                (RETRY_DELAY QUIZ_CONFIG) (Z.to_nat (MAX_RETRIES QUIZ_CONFIG)) 0 None h0
              = (res, h)
              /\ (1 <= calls h <= 3)%nat
              /\ delays h = backoff_delays (RETRY_DELAY QUIZ_CONFIG) 0 (Nat.pred (calls h))
              /\ ((exists r,
                     res = Ok r
                     /\ response_outcome (endpoint (Nat.pred (calls h)) prompt) = Ok r)
                  \/ (exists e,
                        res = Throw (ThrownAPIError
                                {| message := ("Failed to generate questions after 3 attempts: "
                                               ++ lastError_message (Some e))%string;
                                   code := Some "GENERATION_FAILED"%string |})
                        /\ response_outcome (endpoint 2%nat prompt) = Throw e
                        /\ calls h = 3%nat))).
  { intros k r Hk Hfail Hok.
    destruct (RetryFacts.loop_success_at SyntaxError_message TypeError_message
                endpoint prompt (count request) (MAX_RETRIES QUIZ_CONFIG)
                (RETRY_DELAY QUIZ_CONFIG) k
                (Z.to_nat (MAX_RETRIES QUIZ_CONFIG)) 0 None h0 r)
      as (h & Hrun & Hc & Hd & _); try assumption.
    - reflexivity.
    - exists (Ok r), h. split; [exact Hrun|].
      change (calls h0) with 0%nat in Hc. change (delays h0) with (@nil Z) in Hd.
      replace (Nat.pred (calls h)) with k by lia.
      split; [simpl in Hk; lia|]. split; [exact Hd|].
      left. exists r. now split. }
  destruct (response_outcome (endpoint 0%nat prompt)) as [r0|e0] eqn:H0.
  { apply (Hsucc 0%nat r0); [lia | intros j Hj; lia | exact H0]. }
  destruct (response_outcome (endpoint 1%nat prompt)) as [r1|e1] eqn:H1.
  { apply (Hsucc 1%nat r1); [lia | | exact H1].
    intros [|j] Hj; [now exists e0 | lia]. }
  destruct (response_outcome (endpoint 2%nat prompt)) as [r2|e2] eqn:H2.
  { apply (Hsucc 2%nat r2); [lia | | exact H2].
    intros [|[|j]] Hj; [now exists e0 | now exists e1 | lia]. }
  clear Hsucc.
  destruct (RetryFacts.loop_all_fail SyntaxError_message TypeError_message
              endpoint prompt (count request) (MAX_RETRIES QUIZ_CONFIG)
              (RETRY_DELAY QUIZ_CONFIG)
              (Z.to_nat (MAX_RETRIES QUIZ_CONFIG)) 0 None h0)
    as (h & Hrun & Hc & Hd & _).
  - reflexivity.
  - intros [|[|[|j]]] Hj; [now exists e0 | now exists e1 | now exists e2 | simpl in Hj; lia].
  - do 2 eexists. split; [exact Hrun|].
    change (calls h0) with 0%nat in Hc. change (delays h0) with (@nil Z) in Hd.
    simpl in Hc. rewrite Hc. split; [lia|]. split; [exact Hd|].
    right. exists e2. split; [|now split].
    change (Z.to_nat (MAX_RETRIES QUIZ_CONFIG)) with 3%nat.
    subst h0. cbn [calls List.filter is_call length app Nat.add].
    fold prompt. rewrite H2. reflexivity.
Qed.

(** X6: whatever the endpoint does, [generateQuestions] makes between one
    and three calls and ends in one of two ways: it returns what the
    last call's answer was made into, every question of which passes the
    validator, or, after three calls, it throws the [APIError] with the
    code [GENERATION_FAILED]; no other value is ever thrown. *)
Theorem generateQuestions_outcome
  (endpoint : Endpoint) (request : GenerateQuestionsRequest) :
  let prompt := generateQuestionsPrompt (topic request) (count request) in
  exists res h,
    generateQuestions endpoint request [] = (res, h)
    /\ (1 <= calls h <= 3)%nat
    /\ ((exists r,
           res = Ok r
           /\ response_outcome (endpoint (Nat.pred (calls h)) prompt) = Ok r
           /\ Forall (fun q => validateQuestion q = Ok true) (questions r))
        \/ (exists err,
              res = Throw (ThrownAPIError err)
              /\ code err = Some "GENERATION_FAILED"%string
              /\ calls h = 3%nat)).
Proof.
  intros prompt.
  destruct (generateQuestions_cases endpoint request)
    as (res & h & Hrun & Hc & _ & [(r & -> & Hok)|(e & -> & _ & H3)]).
  - exists (Ok r), h. split; [exact Hrun|]. split; [exact Hc|].
    left. exists r. split; [reflexivity|]. split; [exact Hok|].
    now apply (response_outcome_valid _ _ _ _ Hok).
  - eexists. exists h. split; [exact Hrun|]. split; [exact Hc|].
    right. eexists. split; [reflexivity|]. now split.
Qed.

(** X7: whatever the endpoint does, every call of one run of
    [generateQuestions] carries the same prompt, the run waits 1000 ms
    after a first failure and 2000 ms after a second one and never
    otherwise, so that it waits 3000 ms at most, and never after the
    last call. *)
Theorem generateQuestions_same_prompt_bounded_wait
  (endpoint : Endpoint) (request : GenerateQuestionsRequest) :
  let prompt := generateQuestionsPrompt (topic request) (count request) in
  let h := snd (generateQuestions endpoint request []) in
  call_prompts h = repeat prompt (calls h)
  /\ delays h = backoff_delays (RETRY_DELAY QUIZ_CONFIG) 0 (Nat.pred (calls h))
  /\ (delays h = [] \/ delays h = [1000] \/ delays h = [1000; 2000])
  /\ 0 <= total_delay h <= 3000.
Proof.
  intros prompt h.
  assert (Hprompts : call_prompts h = repeat prompt (calls h)).
  { unfold h. rewrite RetryFacts.generateQuestions_loop_entry.
    destruct (loop_prompts SyntaxError_message TypeError_message endpoint prompt
                (count request) (MAX_RETRIES QUIZ_CONFIG) (RETRY_DELAY QUIZ_CONFIG)
                (Z.to_nat (MAX_RETRIES QUIZ_CONFIG)) 0 None
                ([] ++ [Console Log [Text "🤖 Generating questions with AI for topic:";
                                     Text (topic request)]]))
      as [n Hn].
    fold prompt. rewrite calls_call_prompts, Hn. simpl.
    now rewrite repeat_length. }
  split; [exact Hprompts|].
  destruct (generateQuestions_cases endpoint request)
    as (res & h' & Hrun & Hc & Hd & _).
  assert (h = h') as <- by (unfold h; now rewrite Hrun).
  split; [exact Hd|].
  unfold total_delay. rewrite Hd.
  assert (calls h = 1 \/ calls h = 2 \/ calls h = 3)%nat as [->|[->| ->]] by lia;
    simpl; (split; [tauto | lia]).
Qed.

End Engine.

End GenerationFacts.

(** ** The questions prompt *)

Module QuestionsPromptFacts.

Import JsNumber Json AiService PipelineNotions.

Lemma contains_app_r (sub a b : string) : contains sub b -> contains sub (a ++ b).
Proof.
  intros (pre & post & ->). exists (a ++ pre), post.
  now rewrite ExtractionFacts.append_assoc.
Qed.

Lemma contains_app_l (sub a b : string) : contains sub a -> contains sub (a ++ b).
Proof.
  intros (pre & post & ->). exists pre, (post ++ b).
  now rewrite !ExtractionFacts.append_assoc.
Qed.

Lemma prefix_split (sub s : string) :
  String.prefix sub s = true -> exists post, s = sub ++ post.
Proof.
  revert s. induction sub as [|c sub IH]; intros s H.
  - now exists s.
  - destruct s as [|c' s]; [discriminate|]. simpl in H.
    destruct (ascii_dec c c') as [->|]; [|discriminate].
    destruct (IH s H) as [post ->]. now exists post.
Qed.

(** A text in which [sub] occurs contains it. *)
Lemma occurrences_contains (sub s : string) :
  occurrences sub s <> 0%nat -> contains sub s.
Proof.
  induction s as [|c s IH]; intros H; [simpl in H; congruence|].
  cbn [occurrences] in H.
  destruct (String.prefix sub (String c s)) eqn:Hp.
  - destruct (prefix_split _ _ Hp) as [post Heq]. exists EmptyString, post.
    exact Heq.
  - cbn [Nat.add] in H. destruct (IH H) as (pre & post & ->).
    now exists (String c pre), post.
Qed.

Lemma generateQuestionsPrompt_parts (topic : string) (count : number) :
  generateQuestionsPrompt topic count
  = "Generate exactly " ++ Number_toString count
    ++ " multiple choice questions about " ++ topic
    ++ questions_schema ++ Number_toString count ++ questions_requirements.
Proof. reflexivity. Qed.

(** X8: for every topic and count the questions prompt names the topic, asks
    twice for exactly [count] questions, and spells out the schema it
    expects: an object with a [questions] array whose items have the
    members [id], [question], [options] and [correctAnswer], four options
    each and an index from 0 to 3. *)
Theorem generateQuestionsPrompt_content (topic : string) (count : number) :
  let prompt := generateQuestionsPrompt topic count in
  contains ("Generate exactly " ++ Number_toString count
            ++ " multiple choice questions about " ++ topic ++ ".") prompt
  /\ contains ("- Exactly " ++ Number_toString count ++ " questions") prompt
  /\ contains (dq "'questions': [") prompt
  /\ contains (dq "'id':") prompt
  /\ contains (dq "'question':") prompt
  /\ contains (dq "'options': [") prompt
  /\ contains (dq "'correctAnswer':") prompt
  /\ contains "- Each question must have exactly 4 options" prompt
  /\ contains "- correctAnswer is the index (0-3) of the correct option" prompt
  /\ contains "Return ONLY valid JSON" prompt.
Proof.
  intros prompt. unfold prompt. rewrite generateQuestionsPrompt_parts.
  assert (Hschema : forall sub,
            occurrences sub questions_schema <> 0%nat ->
            contains sub ("Generate exactly " ++ Number_toString count
                          ++ " multiple choice questions about " ++ topic
                          ++ questions_schema ++ Number_toString count
                          ++ questions_requirements)).
  { intros sub H. do 4 apply contains_app_r. apply contains_app_l.
    now apply occurrences_contains. }
  assert (Hreq : forall sub,
            occurrences sub questions_requirements <> 0%nat ->
            contains sub ("Generate exactly " ++ Number_toString count
                          ++ " multiple choice questions about " ++ topic
                          ++ questions_schema ++ Number_toString count
                          ++ questions_requirements)).
  { intros sub H. do 6 apply contains_app_r. now apply occurrences_contains. }
  split.
  { clear Hschema Hreq.
    assert (Hs : exists s2, questions_schema = "." ++ s2)
      by (exists (substring 1 (String.length questions_schema - 1) questions_schema);
          reflexivity).
    destruct Hs as [s2 ->].
    exists EmptyString, (s2 ++ Number_toString count ++ questions_requirements).
    repeat (rewrite !ExtractionFacts.append_assoc; cbn [String.append]).
    reflexivity. }
  split.
  { clear Hschema Hreq. do 4 apply contains_app_r.
    assert (Hs : exists s1, questions_schema = s1 ++ "- Exactly ")
      by (exists (substring 0 (String.length questions_schema - 10) questions_schema);
          reflexivity).
    assert (Hr : exists r1, questions_requirements = " questions" ++ r1)
      by (exists (substring 10 (String.length questions_requirements - 10)
                    questions_requirements);
          reflexivity).
    destruct Hs as [s1 ->]. destruct Hr as [r1 ->].
    exists s1, r1.
    repeat (rewrite !ExtractionFacts.append_assoc; cbn [String.append]).
    reflexivity. }
  repeat split;
    first [ apply Hschema; vm_compute; congruence
          | apply Hreq; vm_compute; congruence ].
Qed.

End QuestionsPromptFacts.

(** ** The actions of the quiz provider *)

Module ActionFacts.

Import JsNumber QuizContext QuizActions.

Local Open Scope list_scope.




(** X10: moving on and back returns to the same state, and so does moving
    back and on, wherever the move is possible; at the last question
    [nextQuestion] changes nothing, and at the first one
    [previousQuestion] changes nothing. *)
Theorem next_previous_inverse (s : State) :
  (0 <= currentQuestionIndex s < Z.of_nat (length (questions s)) - 1 ->
   previousQuestion (nextQuestion s) = s)
  /\ (0 < currentQuestionIndex s < Z.of_nat (length (questions s)) ->
      nextQuestion (previousQuestion s) = s)
  /\ (Z.of_nat (length (questions s)) - 1 <= currentQuestionIndex s ->
      nextQuestion s = s)
  /\ (currentQuestionIndex s <= 0 -> previousQuestion s = s).
Proof.
  destruct s as [t qs i ua r ld e rv dm].
  unfold nextQuestion, previousQuestion, set_currentQuestionIndex. cbn.
  repeat split; intros H.
  - destruct (Z.ltb_spec i (Z.of_nat (length qs) - 1)); [|lia]. cbn.
    destruct (Z.ltb_spec 0 (i + 1)); [|lia]. f_equal. lia.
  - destruct (Z.ltb_spec 0 i); [|lia]. cbn.
    destruct (Z.ltb_spec (i - 1) (Z.of_nat (length qs) - 1)); [|lia]. f_equal. lia.
  - now destruct (Z.ltb_spec i (Z.of_nat (length qs) - 1)); [lia|].
  - now destruct (Z.ltb_spec 0 i); [lia|].
Qed.

Lemma next_previous_inverse_witness :
  let s := setQuestions
             (repeat {| id := "a"; question := "?"; options := [];
                        correctAnswer := of_Z 0 |} 3)
             (initial false) in
  previousQuestion (nextQuestion s) = s.
Proof.
  intros s. apply (proj1 (next_previous_inverse s)). cbn. lia.
Defined.

(** *** Looking answers up *)

Section Recording.

Variables (qid : string) (sel : number) (ic : bool).

Local Abbreviation answer :=
  {| questionId := qid; selectedOption := sel; isCorrect := ic |}.

Lemma find_answer_record_same (l : list UserAnswer) :
  find_answer qid (record_answer qid sel ic l) = Some answer.
Proof.
  unfold find_answer, record_answer.
  destruct (list_find (fun a => questionId a = qid) l) as [[i a]|] eqn:Hfind.
  - apply list_find_Some in Hfind as (Hi & Ha & Hbefore).
    assert (Hnew : list_find (fun a => questionId a = qid) (<[i:=answer]> l)
                   = Some (i, answer)).
    { apply list_find_Some. split.
      - apply list_lookup_insert_eq. now apply lookup_lt_Some in Hi.
      - split; [reflexivity|]. intros j y Hj Hlt.
        rewrite list_lookup_insert_ne in Hj by lia. now apply (Hbefore j). }
    now rewrite Hnew.
  - assert (Hnew : list_find (fun a => questionId a = qid) (l ++ [answer])
                   = Some (length l, answer)).
    { apply list_find_Some. split.
      - rewrite lookup_app_r by lia. now rewrite Nat.sub_diag.
      - split; [reflexivity|]. intros j y Hj Hlt.
        rewrite lookup_app_l in Hj by lia.
        rewrite list_find_None in Hfind. rewrite Forall_forall in Hfind.
        apply Hfind. now apply list_elem_of_lookup_2 in Hj. }
    now rewrite Hnew.
Qed.

Lemma list_find_insert_other (P : UserAnswer -> Prop) `{forall x, Decision (P x)}
  (l : list UserAnswer) (i : nat) (old new : UserAnswer) :
  l !! i = Some old -> ~ P old -> ~ P new ->
  list_find P (<[i:=new]> l) = list_find P l.
Proof.
  intros Hi Hold Hnew.
  destruct (list_find P l) as [[j y]|] eqn:Hfind.
  - apply list_find_Some in Hfind as (Hj & Hy & Hbefore).
    assert (i <> j) by (intros ->; rewrite Hi in Hj; injection Hj as ->; contradiction).
    apply list_find_Some. split; [now rewrite list_lookup_insert_ne|].
    split; [assumption|]. intros k z Hk Hlt.
    destruct (decide (i = k)) as [->|Hne].
    + rewrite list_lookup_insert_eq in Hk by (now apply lookup_lt_Some in Hi).
      now injection Hk as <-.
    + rewrite list_lookup_insert_ne in Hk by assumption. now apply (Hbefore k).
  - apply list_find_None. rewrite list_find_None in Hfind.
    rewrite Forall_forall in *. intros x Hx.
    apply list_elem_of_lookup in Hx as [k Hk].
    destruct (decide (i = k)) as [->|Hne].
    + rewrite list_lookup_insert_eq in Hk by (now apply lookup_lt_Some in Hi).
      now injection Hk as <-.
    + rewrite list_lookup_insert_ne in Hk by assumption.
      apply Hfind. now apply list_elem_of_lookup_2 in Hk.
Qed.

Lemma find_answer_record_other (other : string) (l : list UserAnswer) :
  other <> qid ->
  find_answer other (record_answer qid sel ic l) = find_answer other l.
Proof.
  intros Hne. unfold find_answer, record_answer.
  destruct (list_find (fun a => questionId a = qid) l) as [[i a]|] eqn:Hfind.
  - apply list_find_Some in Hfind as (Hi & Ha & _).
    rewrite (list_find_insert_other (fun a => questionId a = other) l i a answer);
      [reflexivity | assumption | | ]; cbn; congruence.
  - destruct (list_find (fun a => questionId a = other) l) as [[j y]|] eqn:Ho.
    + apply list_find_Some in Ho as (Hj & Hy & Hbefore).
      assert (Hnew : list_find (fun a => questionId a = other) (l ++ [answer])
                     = Some (j, y)).
      { apply list_find_Some. split.
        - rewrite lookup_app_l; [assumption | now apply lookup_lt_Some in Hj].
        - split; [assumption|]. intros k z Hk Hlt.
          rewrite lookup_app_l in Hk by (apply lookup_lt_Some in Hj; lia).
          now apply (Hbefore k). }
      now rewrite Hnew.
    + assert (Hnew : list_find (fun a => questionId a = other) (l ++ [answer]) = None).
      { apply list_find_None. rewrite list_find_None in Ho.
        apply Forall_app. split; [assumption|].
        constructor; [cbn; congruence | constructor]. }
      now rewrite Hnew.
Qed.

End Recording.

(** X11: after [answerQuestion], looking the question up gives the answer just
    recorded, with [isCorrect] as computed, and looking any other
    question up gives what it gave before. *)
Theorem answerQuestion_lookup (s : State) (q other : string) (sel corr : number) :
  find_answer q (userAnswers (answerQuestion q sel corr s))
  = Some {| questionId := q; selectedOption := sel;
            isCorrect := strict_equals sel corr |}
  /\ (other <> q ->
      find_answer other (userAnswers (answerQuestion q sel corr s))
      = find_answer other (userAnswers s)).
Proof.
  split.
  - apply find_answer_record_same.
  - apply find_answer_record_other.
Qed.

Lemma answerQuestion_lookup_witness :
  find_answer "q2"
    (userAnswers (answerQuestion "q1" (of_Z 1) (of_Z 1)
                    (answerQuestion "q2" (of_Z 0) (of_Z 3) (initial false))))
  = find_answer "q2"
      (userAnswers (answerQuestion "q2" (of_Z 0) (of_Z 3) (initial false))).
Proof.
  apply (proj2 (answerQuestion_lookup
                  (answerQuestion "q2" (of_Z 0) (of_Z 3) (initial false))
                  "q1" "q2" (of_Z 1) (of_Z 1))).
  discriminate.
Defined.

Lemma list_find_record (q : string) (sel : number) (ic : bool) (l : list UserAnswer) :
  list_find (fun a => questionId a = q) (record_answer q sel ic l)
  = Some (match list_find (fun a => questionId a = q) l with
          | Some (i, _) => i
          | None => length l
          end,
          {| questionId := q; selectedOption := sel; isCorrect := ic |}).
Proof.
  unfold record_answer.
  destruct (list_find (fun a => questionId a = q) l) as [[i a]|] eqn:Hfind.
  - apply list_find_Some in Hfind as (Hi & Ha & Hbefore).
    apply list_find_Some. split.
    + apply list_lookup_insert_eq. now apply lookup_lt_Some in Hi.
    + split; [reflexivity|]. intros j y Hj Hlt.
      rewrite list_lookup_insert_ne in Hj by lia. now apply (Hbefore j).
  - apply list_find_Some. split.
    + rewrite lookup_app_r by lia. now rewrite Nat.sub_diag.
    + split; [reflexivity|]. intros j y Hj Hlt.
      rewrite lookup_app_l in Hj by lia.
      rewrite list_find_None in Hfind. rewrite Forall_forall in Hfind.
      apply Hfind. now apply list_elem_of_lookup_2 in Hj.
Qed.

Lemma record_answer_twice (q : string) (sel1 sel2 : number) (ic1 ic2 : bool)
  (l : list UserAnswer) :
  record_answer q sel2 ic2 (record_answer q sel1 ic1 l) = record_answer q sel2 ic2 l.
Proof.
  unfold record_answer at 1. rewrite list_find_record.
  unfold record_answer.
  destruct (list_find (fun a => questionId a = q) l) as [[i a]|].
  - apply list_insert_insert_eq.
  - replace (length l) with (length l + 0)%nat by lia.
    now rewrite insert_app_r.
Qed.

(** X12: answering the same question again replaces the earlier answer
    altogether: the state is the one a single call with the later
    choice leads to. *)
Theorem answerQuestion_last_write_wins
  (s : State) (q : string) (sel1 corr1 sel2 corr2 : number) :
  answerQuestion q sel2 corr2 (answerQuestion q sel1 corr1 s)
  = answerQuestion q sel2 corr2 s
  /\ length (userAnswers (answerQuestion q sel2 corr2 (answerQuestion q sel1 corr1 s)))
     = length (userAnswers (answerQuestion q sel1 corr1 s)).
Proof.
  unfold answerQuestion, set_userAnswers. cbn [userAnswers currentTopic questions
    currentQuestionIndex quizResult isLoading error isReviewMode isDarkMode].
  rewrite record_answer_twice. split; [reflexivity|].
  rewrite <- (record_answer_twice q sel1 sel2 (strict_equals sel1 corr1)
                (strict_equals sel2 corr2) (userAnswers s)).
  unfold record_answer at 1. rewrite list_find_record.
  apply length_insert.
Qed.

Lemma run_answers_app (ops1 ops2 : list (string * number * number)) (s : State) :
  run_answers (ops1 ++ ops2) s = run_answers ops2 (run_answers ops1 s).
Proof. unfold run_answers. apply fold_left_app. Qed.

Lemma run_answers_lookup_other (q : string) (ops : list (string * number * number)) :
  forall s,
    Forall (fun op => op.1.1 <> q) ops ->
    find_answer q (userAnswers (run_answers ops s)) = find_answer q (userAnswers s).
Proof.
  induction ops as [|[[q' sel] corr] ops IH]; intros s Hall; [reflexivity|].
  apply Forall_cons in Hall as [Hq Hall]. cbn in Hq.
  change (run_answers ((q', sel, corr) :: ops) s)
    with (run_answers ops (answerQuestion q' sel corr s)).
  rewrite IH by assumption.
  apply find_answer_record_other. congruence.
Qed.

(** X13: after any sequence of [answerQuestion] calls, the answer found for a
    question is the one of the last call for that question, and a
    question no call was for has the answer it had before. *)
Theorem run_answers_lookup
  (s : State) (ops1 ops2 : list (string * number * number))
  (q : string) (sel corr : number) :
  Forall (fun op => op.1.1 <> q) ops2 ->
  find_answer q (userAnswers (run_answers (ops1 ++ (q, sel, corr) :: ops2) s))
  = Some {| questionId := q; selectedOption := sel;
            isCorrect := strict_equals sel corr |}
  /\ find_answer q (userAnswers (run_answers ops2 s)) = find_answer q (userAnswers s).
Proof.
  intros Hall. split.
  - rewrite run_answers_app.
    change (run_answers ((q, sel, corr) :: ops2) (run_answers ops1 s))
      with (run_answers ops2 (answerQuestion q sel corr (run_answers ops1 s))).
    rewrite run_answers_lookup_other by assumption.
    apply find_answer_record_same.
  - now apply run_answers_lookup_other.
Qed.

Lemma run_answers_lookup_witness :
  find_answer "q1"
    (userAnswers
       (run_answers ([("q1"%string, of_Z 0, of_Z 1)]
                     ++ ("q1"%string, of_Z 1, of_Z 1) :: [("q2"%string, of_Z 2, of_Z 0)])
          (initial false)))
  = Some {| questionId := "q1"; selectedOption := of_Z 1; isCorrect := true |}.
Proof.
  apply (proj1 (run_answers_lookup (initial false) [("q1"%string, of_Z 0, of_Z 1)]
                  [("q2"%string, of_Z 2, of_Z 0)] "q1" (of_Z 1) (of_Z 1)
                  ltac:(repeat constructor; discriminate))).
Defined.

End ActionFacts.

(** ** The results screen *)

Module ResultsFacts.

Import JsNumber Json AiService ResultsScreen ResultsChecks.

Local Open Scope list_scope.

(** X14: the emoji and the colour of a score change together: two scores get
    the same emoji exactly when they get the same colour, whatever the
    numbers are, and a score that is not a number gets the lowest tier of
    both. *)
Theorem score_emoji_and_color_agree (a b : number) :
  (getScoreEmoji a = getScoreEmoji b <-> getScoreColor a = getScoreColor b)
  /\ getScoreEmoji NaN = "📚"%string
  /\ getScoreColor NaN = "#fc8181"%string.
Proof.
  split; [|split; reflexivity].
  unfold getScoreEmoji, getScoreColor.
  destruct (strict_equals a (of_Z 100)), (ge a (of_Z 80)), (ge a (of_Z 60)),
    (ge a (of_Z 40)), (strict_equals b (of_Z 100)), (ge b (of_Z 80)),
    (ge b (of_Z 60)), (ge b (of_Z 40));
    split; intros H; try reflexivity; discriminate H.
Qed.

Lemma trophy_agrees_below_200 :
  forallb (fun t => forallb (trophy_agrees t) (seq 0 (S t))) (seq 1 199) = true.
Proof. vm_compute. reflexivity. Qed.

(** With 200 questions, 199 correct answers already make a score of 100. *)
Example trophy_199_of_200 :
  getScoreEmoji (QuizContext.compute_score 199 200) = "🏆"%string.
Proof. vm_compute. reflexivity. Qed.

(** X15: for every quiz of fewer than 200 questions, the score computed at
    finalisation earns the trophy exactly when every question was
    answered correctly. *)
Theorem trophy_iff_all_correct (t c : nat) :
  (0 < t < 200)%nat -> (c <= t)%nat ->
  getScoreEmoji (QuizContext.compute_score c t) = "🏆"%string <-> c = t.
Proof.
  intros Ht Hc.
  pose proof trophy_agrees_below_200 as H.
  rewrite forallb_forall in H.
  specialize (H t). rewrite in_seq in H. specialize (H ltac:(lia)).
  rewrite forallb_forall in H.
  specialize (H c). rewrite in_seq in H. specialize (H ltac:(lia)).
  unfold trophy_agrees in H. apply Bool.eqb_prop in H.
  rewrite <- Nat.eqb_eq, <- H. symmetry. apply String.eqb_eq.
Qed.

Lemma trophy_iff_all_correct_witness :
  getScoreEmoji (QuizContext.compute_score 5 5) = "🏆"%string.
Proof.
  apply (trophy_iff_all_correct 5 5); [lia | lia | reflexivity].
Defined.

Section Engine.

Variable SyntaxError_message : string -> string.
Variable TypeError_message : string -> string.

Local Abbreviation generateFeedback :=
  (generateFeedback SyntaxError_message TypeError_message).
Local Abbreviation on_mount := (on_mount SyntaxError_message TypeError_message).

(** One run of [generateFeedback]: one call, and a message that is not
    empty when there is one. *)
Lemma generateFeedback_cases (endpoint : Endpoint) (request : GenerateFeedbackRequest)
  (h0 : History) :
  exists res h,
    generateFeedback endpoint request h0 = (res, h)
    /\ calls h = S (calls h0)
    /\ (forall r, res = Ok r -> fb_message r <> EmptyString).
Proof.
  unfold AiService.generateFeedback.
  unfold bind, try_catch, console_log, console_error, emit, callGeminiAPI,
    lift, throw, ret.
  destruct (endpoint _ _) as [text|e0].
  2:{ do 2 eexists. split; [reflexivity|].
      rewrite !RetryFacts.calls_app. cbn. split; [lia | discriminate]. }
  destruct (extractJSON SyntaxError_message text) as [payload|e1].
  2:{ do 2 eexists. split; [reflexivity|].
      rewrite !RetryFacts.calls_app. cbn. split; [lia | discriminate]. }
  destruct (read TypeError_message payload "message") as [field|e2].
  2:{ do 2 eexists. split; [reflexivity|].
      rewrite !RetryFacts.calls_app. cbn. split; [lia | discriminate]. }
  destruct field as [[| | |m| |]|];
    try (do 2 eexists; (split; [reflexivity|]);
         rewrite !RetryFacts.calls_app; cbn; split; [lia | discriminate]).
  destruct (truthy (Some (JString m))) eqn:Ht; cbn [negb].
  - do 2 eexists. split; [reflexivity|].
    rewrite !RetryFacts.calls_app. cbn. split; [lia|].
    intros r [= <-]. cbn. intros ->. discriminate Ht.
  - do 2 eexists. split; [reflexivity|].
    rewrite !RetryFacts.calls_app. cbn. split; [lia | discriminate].
Qed.

(** X16: mounting the results screen for a finished quiz asks for feedback
    with exactly one call, and however that call ends the screen stops
    loading and stays where it is: the feedback shown is the message
    returned, which is not empty, or nothing at all when the generation
    failed.  Mounting it again asks for nothing. *)
Theorem on_mount_fetches_once (endpoint : Endpoint) (ctx : QuizContext.State)
  (r : QuizContext.QuizResult) (v : View) :
  QuizContext.quizResult ctx = Some r ->
  hasFetched v = false ->
  exists v' h,
    on_mount endpoint ctx v [] = (v', h)
    /\ calls h = 1%nat
    /\ loadingFeedback v' = false
    /\ hasFetched v' = true
    /\ route v' = route v
    /\ on_mount endpoint ctx v' h = (v', h)
    /\ (forall e,
          fst (generateFeedback endpoint
                 (feedback_request (QuizContext.currentTopic ctx) r) []) = Throw e ->
          feedback v' = EmptyString)
    /\ (forall m,
          fst (generateFeedback endpoint
                 (feedback_request (QuizContext.currentTopic ctx) r) [])
          = Ok {| fb_message := m |} ->
          feedback v' = m /\ m <> EmptyString).
Proof.
  intros Hr Hf. unfold ResultsScreen.on_mount. rewrite Hr, Hf.
  unfold loadFeedback.
  destruct (generateFeedback_cases endpoint
              (feedback_request (QuizContext.currentTopic ctx) r) [])
    as (res & h & Hrun & Hc & Hm).
  rewrite Hrun. cbn [fst].
  assert (Hc1 : calls h = 1%nat) by exact Hc.
  destruct res as [response|error].
  - do 2 eexists. split; [reflexivity|]. cbn.
    split; [exact Hc1|]. repeat split; try discriminate.
    + injection H as ->. reflexivity.
    + injection H as ->. now apply (Hm {| fb_message := m |}).
  - do 2 eexists. split; [reflexivity|]. cbn.
    rewrite RetryFacts.calls_app, Hc1.
    split; [reflexivity|]. repeat split; discriminate.
Qed.

End Engine.

Lemma on_mount_fetches_once_witness :
  exists v' h,
    on_mount Samples.SyntaxError_text Samples.TypeError_text
      Samples.feedback_endpoint
      (QuizContext.finalizeQuiz [] (QuizContext.initial false)) (fresh "/results") []
    = (v', h)
    /\ calls h = 1%nat
    /\ feedback v' = "Well done, keep going."%string.
Proof.
  destruct (on_mount_fetches_once Samples.SyntaxError_text Samples.TypeError_text
              Samples.feedback_endpoint
              (QuizContext.finalizeQuiz [] (QuizContext.initial false))
              (QuizContext.build_result [] []) (fresh "/results")
              eq_refl eq_refl)
    as (v' & h & Hrun & Hc & _ & _ & _ & _ & _ & Hok).
  exists v', h. split; [exact Hrun|]. split; [exact Hc|].
  now apply (Hok "Well done, keep going."%string).
Defined.

End ResultsFacts.

(** ** The loading screen *)

Module LoadingFacts.

Import JsNumber Json AiService PipelineNotions QuestionView QuizLoading.

Local Open Scope list_scope.

Section Engine.

Variable SyntaxError_message : string -> string.
Variable TypeError_message : string -> string.

Local Abbreviation loadQuestions :=
  (loadQuestions SyntaxError_message TypeError_message).
Local Abbreviation on_mount :=
  (QuizLoading.on_mount SyntaxError_message TypeError_message).
Local Abbreviation response_outcome :=
  (response_outcome SyntaxError_message TypeError_message).

(** X17: without a topic the screen goes back to the topic selection: nothing
    is asked of the service, the quiz state is untouched and the screen
    may load again later. *)
Theorem loadQuestions_without_topic (endpoint : Endpoint) (p : Page) (h : History) :
  QuizContext.currentTopic (ctx p) = None
  \/ QuizContext.currentTopic (ctx p) = Some EmptyString ->
  hasLoaded p = false ->
  exists p',
    on_mount endpoint p h = (Ok tt, p', h)
    /\ route p' = "/"%string
    /\ ctx p' = ctx p
    /\ hasLoaded p' = false
    /\ timer p' = timer p.
Proof.
  intros Ht Hl. unfold QuizLoading.on_mount, QuizLoading.loadQuestions.
  rewrite Hl. destruct Ht as [-> | ->]; cbn; eexists; (split; [reflexivity|]);
    cbn; now rewrite ?Hl.
Qed.

(** X18: with a topic, [loadQuestions] never rejects and always ends with the
    loading flag down, after one to three calls.  Either the last call
    gave valid questions: they are all in the quiz state, in order, the
    quiz starts at the first question with no answer and no result, no
    error is shown, and the quiz screen is due in 500 ms.  Or all three
    calls failed: the error shown is that of the generation with the
    message of the last failure, the questions and the answers are as
    before, no navigation is due and the screen may load again. *)
Theorem loadQuestions_outcome (endpoint : Endpoint) (p : Page) (t : string) :
  QuizContext.currentTopic (ctx p) = Some t ->
  t <> EmptyString ->
  let prompt := generateQuestionsPrompt t (of_Z 5) in
  exists p' h,
    loadQuestions endpoint p [] = (Ok tt, p', h)
    /\ (1 <= calls h <= 3)%nat
    /\ QuizContext.isLoading (ctx p') = false
    /\ QuizContext.currentTopic (ctx p') = Some t
    /\ route p' = route p
    /\ ((exists r,
           response_outcome (endpoint (Nat.pred (calls h)) prompt) = Ok r
           /\ Forall2 (fun q x => as_Question q = Some x)
                      (questions r) (QuizContext.questions (ctx p'))
           /\ QuizContext.currentQuestionIndex (ctx p') = 0
           /\ QuizContext.userAnswers (ctx p') = []
           /\ QuizContext.quizResult (ctx p') = None
           /\ QuizContext.error (ctx p') = None
           /\ timer p' = Some (500, "/quiz"%string)
           /\ hasLoaded p' = true)
        \/ (exists e,
              calls h = 3%nat
              /\ response_outcome (endpoint 2%nat prompt) = Throw e
              /\ QuizContext.error (ctx p')
                 = Some ("Failed to generate questions after 3 attempts: "
                         ++ lastError_message (Some e))%string
              /\ QuizContext.questions (ctx p') = QuizContext.questions (ctx p)
              /\ QuizContext.userAnswers (ctx p') = QuizContext.userAnswers (ctx p)
              /\ QuizContext.quizResult (ctx p') = QuizContext.quizResult (ctx p)
              /\ timer p' = timer p
              /\ hasLoaded p' = false)).
Proof.
  intros Ht Hne prompt. unfold QuizLoading.loadQuestions. rewrite Ht.
  destruct (String.eqb t EmptyString) eqn:He;
    [apply String.eqb_eq in He; contradiction|].
  cbv beta iota zeta.
  destruct (GenerationFacts.generateQuestions_cases SyntaxError_message
              TypeError_message endpoint
              {| topic := t; count := of_Z (QUESTIONS_PER_QUIZ QUIZ_CONFIG) |})
    as (res & h & Hrun & Hc & _ & [(r & -> & Hok)|(e & -> & Hlast & H3)]);
    cbn [topic count] in *; rewrite Hrun.
  - do 2 eexists. split; [reflexivity|]. split; [exact Hc|].
    cbn. split; [reflexivity|]. split; [exact Ht|]. split; [reflexivity|].
    left. exists r. split; [exact Hok|].
    split; [|repeat split; reflexivity].
    apply GenerationFacts.response_outcome_valid in Hok.
    apply (GuardFacts.as_Questions_valid TypeError_message) in Hok.
    eapply Forall2_impl; [exact Hok|]. now intros q x [Hq _].
  - do 2 eexists. split; [reflexivity|]. split; [exact Hc|].
    cbn. split; [reflexivity|]. split; [exact Ht|]. split; [reflexivity|].
    right. exists e. repeat split; try reflexivity; assumption.
Qed.

End Engine.

Lemma loadQuestions_without_topic_witness :
  exists p',
    QuizLoading.on_mount Samples.SyntaxError_text Samples.TypeError_text
      Samples.flaky_endpoint
      {| ctx := QuizContext.initial false; route := "/quiz-loading";
         hasLoaded := false; timer := None |} []
    = (Ok tt, p', [])
    /\ route p' = "/"%string.
Proof.
  destruct (loadQuestions_without_topic Samples.SyntaxError_text
              Samples.TypeError_text Samples.flaky_endpoint
              {| ctx := QuizContext.initial false; route := "/quiz-loading";
                 hasLoaded := false; timer := None |} []
              (or_introl eq_refl) eq_refl)
    as (p' & Hrun & Hroute & _).
  exists p'. now split.
Defined.

Lemma loadQuestions_outcome_witness :
  exists p' h,
    QuizLoading.loadQuestions Samples.SyntaxError_text Samples.TypeError_text
      Samples.flaky_endpoint
      {| ctx := QuizActions.setTopic "Science" (QuizContext.initial false);
         route := "/quiz-loading"; hasLoaded := false; timer := None |} []
    = (Ok tt, p', h)
    /\ (1 <= calls h <= 3)%nat
    /\ QuizContext.isLoading (ctx p') = false.
Proof.
  destruct (loadQuestions_outcome Samples.SyntaxError_text Samples.TypeError_text
              Samples.flaky_endpoint
              {| ctx := QuizActions.setTopic "Science" (QuizContext.initial false);
                 route := "/quiz-loading"; hasLoaded := false; timer := None |}
              "Science"%string eq_refl ltac:(discriminate))
    as (p' & h & Hrun & Hc & Hl & _).
  exists p', h. repeat split; try assumption; apply Hc.
Defined.

End LoadingFacts.

(** ** The quiz screen *)

Module QuizScreenFacts.

Import JsNumber QuizContext QuizActions QuizScreen.

Local Open Scope list_scope.

Lemma currentQuestion_at (s : State) (done rest : list Question) (q : Question) :
  questions s = done ++ q :: rest ->
  currentQuestionIndex s = Z.of_nat (length done) ->
  currentQuestion s = Some q.
Proof.
  intros Hq Hi. unfold currentQuestion. rewrite Hi, Hq.
  rewrite (proj2 (Z.ltb_ge _ _)) by lia.
  rewrite Nat2Z.id. rewrite lookup_app_r by lia.
  now rewrite Nat.sub_diag.
Qed.

Lemma isLastQuestion_at (s : State) (done rest : list Question) (q : Question) :
  questions s = done ++ q :: rest ->
  currentQuestionIndex s = Z.of_nat (length done) ->
  isLastQuestion s = match rest with [] => true | _ => false end.
Proof.
  intros Hq Hi. unfold isLastQuestion. rewrite Hi, Hq, length_app.
  destruct rest; cbn [length]; [apply Z.eqb_eq | apply Z.eqb_neq]; lia.
Qed.

Lemma finalAnswers_selected (q : Question) (o : number) (l : list UserAnswer) :
  finalAnswers q (Some o) l
  = record_answer (id q) o (strict_equals o (correctAnswer q)) l.
Proof.
  unfold finalAnswers, record_answer.
  now destruct (list_find _ l) as [[i a]|].
Qed.

Lemma handle_Select (v : Screen) (q : Question) (i : nat) :
  route v = "/quiz"%string ->
  currentQuestion (ctx v) = Some q ->
  (i < length (options q))%nat ->
  isReviewMode (ctx v) = false ->
  handle (Select i) v
  = {| ctx := answerQuestion (id q) (of_nat i) (correctAnswer q) (ctx v);
       selectedOption := Some (of_nat i); route := "/quiz" |}.
Proof.
  intros Hr Hq Hi Hm. unfold handle. rewrite Hr, Hq.
  cbn [String.eqb Ascii.eqb Bool.eqb negb].
  apply Nat.ltb_lt in Hi. rewrite Hi.
  unfold handleOptionSelect. rewrite Hm, Hr.
  generalize (of_nat i) as n. intros n.
  unfold loadExistingAnswer. cbn [ctx route]. f_equal.
  unfold userAnswer.
  replace (currentQuestion (answerQuestion (id q) n (correctAnswer q) (ctx v)))
    with (currentQuestion (ctx v)) by reflexivity.
  rewrite Hq. unfold answerQuestion. cbn [userAnswers set_userAnswers].
  now rewrite ActionFacts.find_answer_record_same.
Qed.

Lemma handle_Next_inner (v : Screen) (q : Question) (o : number) :
  route v = "/quiz"%string ->
  currentQuestion (ctx v) = Some q ->
  isReviewMode (ctx v) = false ->
  selectedOption v = Some o ->
  isLastQuestion (ctx v) = false ->
  ctx (handle Next v) = nextQuestion (ctx v)
  /\ route (handle Next v) = "/quiz"%string.
Proof.
  intros Hr Hq Hm Hs Hl. unfold handle. rewrite Hr, Hq.
  cbn [String.eqb Ascii.eqb Bool.eqb negb].
  unfold canProceed, handleNext. rewrite Hs, Hm, Hl.
  now cbn [loadExistingAnswer ctx route].
Qed.

Lemma handle_Next_last (v : Screen) (q : Question) (o : number) :
  route v = "/quiz"%string ->
  currentQuestion (ctx v) = Some q ->
  isReviewMode (ctx v) = false ->
  selectedOption v = Some o ->
  isLastQuestion (ctx v) = true ->
  ctx (handle Next v)
  = finalizeQuiz (record_answer (id q) o (strict_equals o (correctAnswer q))
                    (userAnswers (ctx v)))
      (ctx v)
  /\ route (handle Next v) = "/results"%string.
Proof.
  intros Hr Hq Hm Hs Hl. unfold handle. rewrite Hr, Hq.
  cbn [String.eqb Ascii.eqb Bool.eqb negb].
  unfold canProceed, handleNext. rewrite Hs, Hm, Hl.
  cbn [loadExistingAnswer ctx route]. split; [|reflexivity].
  now rewrite finalAnswers_selected.
Qed.

(** The answers that a run of [answerQuestion] leaves depend on the
    answers it starts from only. *)
Lemma run_answers_userAnswers (ops : list (string * number * number)) :
  forall s1 s2,
    userAnswers s1 = userAnswers s2 ->
    userAnswers (run_answers ops s1) = userAnswers (run_answers ops s2).
Proof.
  induction ops as [|[[q o] c] ops IH]; intros s1 s2 H; [exact H|].
  change (run_answers ((q, o, c) :: ops) s1)
    with (run_answers ops (answerQuestion q o c s1)).
  change (run_answers ((q, o, c) :: ops) s2)
    with (run_answers ops (answerQuestion q o c s2)).
  apply IH. unfold answerQuestion. cbn [userAnswers set_userAnswers]. now rewrite H.
Qed.

(** Answering the questions that are left, one after the other. *)
Lemma take_quiz_from (rest : list Question) (picks : list nat) :
  Forall2 (fun q i => (i < length (options q))%nat) rest picks ->
  forall (done : list Question) (v : Screen),
    rest <> [] ->
    route v = "/quiz"%string ->
    questions (ctx v) = done ++ rest ->
    currentQuestionIndex (ctx v) = Z.of_nat (length done) ->
    isReviewMode (ctx v) = false ->
    let v' := play (take_quiz picks) v in
    route v' = "/results"%string
    /\ userAnswers (ctx v')
       = userAnswers (run_answers (answer_calls rest picks) (ctx v))
    /\ quizResult (ctx v')
       = Some (build_result (done ++ rest) (userAnswers (ctx v'))).
Proof.
  induction 1 as [|q i rest picks Hi Hrest IH]; intros done v Hne Hr Hq Hidx Hm;
    [contradiction|].
  cbn zeta.
  change (play (take_quiz (i :: picks)) v)
    with (play (take_quiz picks) (handle Next (handle (Select i) v))).
  change (run_answers (answer_calls (q :: rest) (i :: picks)) (ctx v))
    with (run_answers (answer_calls rest picks)
            (answerQuestion (id q) (of_nat i) (correctAnswer q) (ctx v))).
  pose proof (currentQuestion_at _ _ _ _ Hq Hidx) as Hcur.
  rewrite (handle_Select v q i Hr Hcur Hi Hm).
  generalize (of_nat i) as n. intros n.
  set (v1 := {| ctx := answerQuestion (id q) n (correctAnswer q) (ctx v);
                selectedOption := Some n; route := "/quiz" |}).
  assert (Hq1 : questions (ctx v1) = done ++ q :: rest) by exact Hq.
  assert (Hidx1 : currentQuestionIndex (ctx v1) = Z.of_nat (length done)) by exact Hidx.
  assert (Hm1 : isReviewMode (ctx v1) = false) by exact Hm.
  pose proof (currentQuestion_at _ _ _ _ Hq1 Hidx1) as Hcur1.
  pose proof (isLastQuestion_at _ _ _ _ Hq1 Hidx1) as Hlast.
  destruct rest as [|q' rest].
  - apply Forall2_nil_inv_l in Hrest as ->.
    destruct (handle_Next_last v1 q n eq_refl Hcur1 Hm1 eq_refl Hlast) as [Hc Hroute].
    cbn [take_quiz flat_map play fold_left answer_calls zip_with run_answers].
    split; [exact Hroute|]. rewrite Hc.
    cbn [ctx v1 answerQuestion userAnswers set_userAnswers finalizeQuiz
         set_quizResult quizResult questions].
    rewrite ActionFacts.record_answer_twice, Hq. now split.
  - destruct (handle_Next_inner v1 q n eq_refl Hcur1 Hm1 eq_refl Hlast) as [Hc Hroute].
    assert (Hnext : nextQuestion (ctx v1)
                    = set_currentQuestionIndex (Z.of_nat (length done) + 1) (ctx v1)).
    { unfold nextQuestion. rewrite Hidx1, Hq1, length_app. cbn [length].
      now rewrite (proj2 (Z.ltb_lt _ _)) by lia. }
    destruct (IH (done ++ [q]) (handle Next v1)) as (H1 & H2 & H3).
    + discriminate.
    + exact Hroute.
    + rewrite Hc, Hnext. cbn [questions set_currentQuestionIndex].
      change (questions (ctx v1)) with (questions (ctx v)).
      now rewrite Hq, <- app_assoc.
    + rewrite Hc, Hnext. cbn [currentQuestionIndex set_currentQuestionIndex].
      rewrite length_app. cbn [length]. lia.
    + rewrite Hc, Hnext. exact Hm.
    + split; [exact H1|]. split.
      * rewrite H2, Hc, Hnext. now apply run_answers_userAnswers.
      * rewrite H3, <- app_assoc. reflexivity.
Qed.

(** With distinct question ids, each call adds its answer at the end. *)
Lemma run_answers_distinct (rest : list Question) :
  forall (picks : list nat) (s : State),
    NoDup (id <$> rest) ->
    (forall a, a ∈ userAnswers s -> questionId a ∉ id <$> rest) ->
    userAnswers (run_answers (answer_calls rest picks) s)
    = userAnswers s ++ zip_with answer_of rest picks.
Proof.
  induction rest as [|q rest IH]; intros picks s Hnd Hfresh.
  - cbn. now rewrite app_nil_r.
  - destruct picks as [|i picks]; [cbn; now rewrite app_nil_r|].
    change (run_answers (answer_calls (q :: rest) (i :: picks)) s)
      with (run_answers (answer_calls rest picks)
              (answerQuestion (id q) (of_nat i) (correctAnswer q) s)).
    change (zip_with answer_of (q :: rest) (i :: picks))
      with (answer_of q i :: zip_with answer_of rest picks).
    unfold answer_of at 1. generalize (of_nat i) as n. intros n.
    rewrite fmap_cons in Hnd. apply NoDup_cons in Hnd as [Hq Hnd].
    assert (Hnew : userAnswers (answerQuestion (id q) n (correctAnswer q) s)
                   = userAnswers s
                     ++ [{| questionId := id q; QuizContext.selectedOption := n;
                            isCorrect := strict_equals n (correctAnswer q) |}]).
    { unfold answerQuestion. cbn [userAnswers set_userAnswers].
      apply QuizFacts.record_answer_new. unfold answer_ids. intros Hin.
      apply list_elem_of_fmap in Hin as (a & Ha & Hin).
      apply (Hfresh a Hin). rewrite fmap_cons, <- Ha. left. }
    rewrite IH; [| exact Hnd |].
    + rewrite Hnew, <- app_assoc. reflexivity.
    + rewrite Hnew. intros a Ha. apply elem_of_app in Ha as [Ha|Ha].
      * intros Hin. apply (Hfresh a Ha). rewrite fmap_cons. now right.
      * apply list_elem_of_singleton in Ha as ->. exact Hq.
Qed.

(** X19: playing a whole quiz: the screen is mounted on the first of the
    questions, and for each question in turn the user presses an option
    and then Next.  The quiz ends on the results route with a result
    built from the answers held, which are those the successive calls of
    [answerQuestion] leave; when the quiz started without answers and
    the question ids are distinct, they are one answer for each question,
    in the order of the questions, with the option pressed. *)
Theorem take_quiz_result (qs : list Question) (picks : list nat) (s : State) :
  qs <> [] ->
  Forall2 (fun q i => (i < length (options q))%nat) qs picks ->
  questions s = qs ->
  currentQuestionIndex s = 0 ->
  isReviewMode s = false ->
  let v' := play (take_quiz picks) (mount s) in
  route v' = "/results"%string
  /\ userAnswers (ctx v') = userAnswers (run_answers (answer_calls qs picks) s)
  /\ quizResult (ctx v') = Some (build_result qs (userAnswers (ctx v')))
  /\ (userAnswers s = [] -> NoDup (id <$> qs) ->
      userAnswers (ctx v') = zip_with answer_of qs picks).
Proof.
  intros Hne Hpicks Hq Hidx Hm v'.
  assert (Hmount : ctx (mount s) = s /\ route (mount s) = "/quiz"%string).
  { unfold mount. destruct qs as [|q qs]; [contradiction|].
    rewrite (currentQuestion_at s [] qs q Hq Hidx). now split. }
  destruct Hmount as [Hctx Hroute].
  destruct (take_quiz_from qs picks Hpicks [] (mount s) Hne Hroute)
    as (H1 & H2 & H3); rewrite ?Hctx; try assumption.
  fold v' in H1, H2, H3. rewrite Hctx in H2. cbn [app] in H3.
  split; [exact H1|]. split; [exact H2|]. split; [exact H3|].
  intros Hnone Hnd. rewrite H2, run_answers_distinct, Hnone; [reflexivity|exact Hnd|].
  rewrite Hnone. intros a Ha. now apply elem_of_nil in Ha.
Qed.

(** One event in review mode, or off the route of the screen, changes
    neither the answers, nor the result, nor the questions. *)
Lemma handle_review (e : Event) (v : Screen) :
  isReviewMode (ctx v) = true \/ route v <> "/quiz"%string ->
  (isReviewMode (ctx (handle e v)) = true \/ route (handle e v) <> "/quiz"%string)
  /\ userAnswers (ctx (handle e v)) = userAnswers (ctx v)
  /\ quizResult (ctx (handle e v)) = quizResult (ctx v)
  /\ questions (ctx (handle e v)) = questions (ctx v).
Proof.
  intros Hinv. unfold handle.
  destruct (String.eqb (route v) "/quiz") eqn:Hr; cbn [negb].
  2:{ split; [|now repeat split]. right. now apply String.eqb_neq. }
  apply String.eqb_eq in Hr.
  destruct Hinv as [Hm|Hoff]; [|contradiction].
  destruct (currentQuestion (ctx v)) as [q|].
  2:{ cbn [ctx route]. split; [|now repeat split]. right. discriminate. }
  destruct e as [i| | |].
  - unfold handleOptionSelect. rewrite Hm.
    destruct (i <? length (options q))%nat; cbn [loadExistingAnswer ctx route];
      (split; [now left | now repeat split]).
  - unfold canProceed, handleNext. rewrite Hm.
    destruct (selectedOption v); destruct (isLastQuestion (ctx v));
      cbn [loadExistingAnswer ctx route];
      try (split; [right; discriminate | now repeat split]);
      unfold nextQuestion;
      destruct (currentQuestionIndex (ctx v) <? _);
      (split; [now left | now repeat split]).
  - unfold handlePrevious.
    destruct (currentQuestionIndex (ctx v) =? 0); cbn [loadExistingAnswer ctx route];
      [split; [now left | now repeat split]|].
    unfold previousQuestion.
    destruct (0 <? currentQuestionIndex (ctx v));
      (split; [now left | now repeat split]).
  - rewrite Hm. unfold handleExitReview. cbn [loadExistingAnswer ctx route].
    split; [right; discriminate | now repeat split].
Qed.

(** X20: review mode is read-only: whatever the user presses on the quiz
    screen once the review has begun, in any order and any number of
    times, and also after leaving the review with Back to Results, the
    answers, the result and the questions stay as they were. *)
Theorem review_mode_is_read_only (events : list Event) (v : Screen) :
  isReviewMode (ctx v) = true ->
  let v' := play events v in
  userAnswers (ctx v') = userAnswers (ctx v)
  /\ quizResult (ctx v') = quizResult (ctx v)
  /\ questions (ctx v') = questions (ctx v).
Proof.
  intros Hm. cbn zeta.
  assert (Hinv : isReviewMode (ctx v) = true \/ route v <> "/quiz"%string) by now left.
  clear Hm. revert v Hinv.
  induction events as [|e events IH]; intros v Hinv; [now repeat split|].
  change (play (e :: events) v) with (play events (handle e v)).
  destruct (handle_review e v Hinv) as (Hinv' & Ha & Hr & Hq).
  destruct (IH (handle e v) Hinv') as (Ha' & Hr' & Hq').
  rewrite Ha', Hr', Hq'. now repeat split.
Qed.

Lemma take_quiz_result_witness :
  route (play (take_quiz [1%nat; 0%nat])
           (mount (setQuestions
                     [QuizSamples.capital_question; QuizSamples.planet_question]
                     (initial false))))
  = "/results"%string.
Proof.
  apply (take_quiz_result
           [QuizSamples.capital_question; QuizSamples.planet_question]
           [1%nat; 0%nat]
           (setQuestions [QuizSamples.capital_question; QuizSamples.planet_question]
              (initial false)));
    [discriminate | repeat constructor | reflexivity | reflexivity | reflexivity].
Defined.

Lemma review_mode_is_read_only_witness :
  userAnswers
    (ctx (play [Select 2%nat; Next; Previous; ExitReview; Select 0%nat]
            (mount (setReviewMode true
                      (finalizeQuiz [answer_of QuizSamples.capital_question 1]
                         (setQuestions [QuizSamples.capital_question] (initial false)))))))
  = [answer_of QuizSamples.capital_question 1].
Proof.
  apply (review_mode_is_read_only
           [Select 2%nat; Next; Previous; ExitReview; Select 0%nat]
           (mount (setReviewMode true
                     (finalizeQuiz [answer_of QuizSamples.capital_question 1]
                        (setQuestions [QuizSamples.capital_question] (initial false)))))).
  reflexivity.
Defined.

End QuizScreenFacts.

(** ** The answer summary of the results screen *)

Module SummaryFacts.

Import JsNumber QuizContext QuizActions ResultsScreen ResultsChecks.

Local Open Scope list_scope.

Lemma find_answer_cons (qid : string) (a : UserAnswer) (l : list UserAnswer) :
  find_answer qid (a :: l)
  = if decide (questionId a = qid) then Some a else find_answer qid l.
Proof.
  unfold find_answer. cbn [list_find].
  destruct (decide (questionId a = qid)); [reflexivity|].
  now destruct (list_find _ l) as [[i y]|].
Qed.

Lemma find_answer_absent (qid : string) (l : list UserAnswer) :
  qid ∉ answer_ids l -> find_answer qid l = None.
Proof.
  induction l as [|a l IH]; intros Hnot; [reflexivity|].
  rewrite find_answer_cons. unfold answer_ids in Hnot. rewrite fmap_cons in Hnot.
  apply not_elem_of_cons in Hnot as [Hne Hnot].
  rewrite decide_False by congruence. now apply IH.
Qed.

(** The row of the summary for the answers [l]. *)
Local Abbreviation row l :=
  (map (fun q => match find_answer (id q) l with
                 | Some a => isCorrect a
                 | None => false
                 end)).

Lemma marks_app (g1 g2 : list bool) : marks (g1 ++ g2) = (marks g1 + marks g2)%nat.
Proof. unfold marks. now rewrite List.filter_app, length_app. Qed.

Lemma row_other (a : UserAnswer) (l : list UserAnswer) (qs : list Question) :
  questionId a ∉ id <$> qs -> row (a :: l) qs = row l qs.
Proof.
  intros Hnot. apply map_ext_in. intros q Hq.
  rewrite find_answer_cons, decide_False; [reflexivity|].
  intros Heq. apply Hnot. rewrite Heq. apply list_elem_of_fmap.
  exists q. split; [reflexivity|]. now apply list_elem_of_In.
Qed.

Lemma row_marks (qs : list Question) (l : list UserAnswer) :
  NoDup (id <$> qs) ->
  NoDup (answer_ids l) ->
  (forall a, a ∈ l -> questionId a ∈ id <$> qs) ->
  marks (row l qs) = length (List.filter isCorrect l).
Proof.
  intros Hqs. induction l as [|a l IH]; intros Hnd Hin.
  - induction qs as [|q qs IHq]; [reflexivity|].
    rewrite fmap_cons in Hqs. apply NoDup_cons in Hqs as [_ Hqs].
    cbn. now apply IHq.
  - unfold answer_ids in Hnd. rewrite fmap_cons in Hnd.
    apply NoDup_cons in Hnd as [Ha Hnd].
    assert (Hmem : questionId a ∈ id <$> qs) by (apply Hin; left).
    apply list_elem_of_fmap in Hmem as (q0 & Hid & Hq0).
    apply list_elem_of_split in Hq0 as (qs1 & qs2 & ->).
    rewrite fmap_app, fmap_cons in Hqs.
    apply NoDup_app in Hqs as (Hnd1 & Hdisj & Hnd2).
    apply NoDup_cons in Hnd2 as [Hq2 Hnd2].
    assert (H1 : questionId a ∉ id <$> qs1).
    { intros H. apply (Hdisj _ H). rewrite Hid. left. }
    assert (H2 : questionId a ∉ id <$> qs2) by now rewrite Hid.
    assert (IH' : marks (row l (qs1 ++ q0 :: qs2)) = length (List.filter isCorrect l)).
    { apply IH; [exact Hnd|]. intros y Hy.
      rewrite fmap_app, fmap_cons. rewrite <- fmap_cons, <- fmap_app.
      apply Hin. now right. }
    rewrite map_app, marks_app in IH' |- *.
    cbn [map] in IH' |- *.
    change (?x :: map ?f qs2) with ([x] ++ map f qs2) in IH' |- *.
    rewrite marks_app in IH' |- *.
    rewrite (row_other a l qs1 H1), (row_other a l qs2 H2).
    rewrite find_answer_cons, decide_True by congruence.
    rewrite (find_answer_absent (id q0) l) in IH' by now rewrite <- Hid.
    cbn [List.filter]. unfold marks at 2. unfold marks at 2 in IH'.
    cbn [List.filter length] in IH'.
    destruct (isCorrect a); cbn [List.filter length]; lia.
Qed.

(** X21: the answer summary agrees with the figures of the result: when the
    question ids are distinct and the answers are for distinct questions
    of the quiz, the number of check marks in the summary is the number
    of correct answers shown, which is at most the number of questions. *)
Theorem answer_summary_matches_result
  (l : list UserAnswer) (s : State) :
  NoDup (id <$> questions s) ->
  NoDup (answer_ids l) ->
  (forall a, a ∈ l -> questionId a ∈ id <$> questions s) ->
  exists r,
    quizResult (finalizeQuiz l s) = Some r
    /\ marks (review_grid (questions (finalizeQuiz l s)) r) = correctAnswers r
    /\ (correctAnswers r <= totalQuestions r)%nat.
Proof.
  intros Hqs Hnd Hin. eexists. split; [reflexivity|].
  cbn [questions finalizeQuiz set_quizResult set_userAnswers build_result
       correctAnswers totalQuestions].
  split.
  - unfold review_grid. cbn [answers]. now apply row_marks.
  - transitivity (length l); [apply List.filter_length_le|].
    assert (Hsub : answer_ids l ⊆+ id <$> questions s).
    { apply NoDup_submseteq; [exact Hnd|]. intros x Hx.
      apply list_elem_of_fmap in Hx as (a & -> & Ha). now apply Hin. }
    apply submseteq_length in Hsub. unfold answer_ids in Hsub.
    now rewrite !length_fmap in Hsub.
Qed.

Lemma answer_summary_matches_result_witness :
  exists r,
    quizResult (finalizeQuiz [QuizScreen.answer_of QuizSamples.capital_question 1]
                  (setQuestions [QuizSamples.capital_question] (initial false)))
    = Some r
    /\ marks (review_grid [QuizSamples.capital_question] r) = correctAnswers r.
Proof.
  destruct (answer_summary_matches_result
              [QuizScreen.answer_of QuizSamples.capital_question 1]
              (setQuestions [QuizSamples.capital_question] (initial false)))
    as (r & Hr & Hm & _).
  - repeat constructor. intros H. now apply elem_of_nil in H.
  - repeat constructor. intros H. now apply elem_of_nil in H.
  - intros a Ha. apply list_elem_of_singleton in Ha as ->. left.
  - exists r. now split.
Defined.

End SummaryFacts.
